(** * mokei: websocket routes, event envelopes and the reconnecting client

    A shallow embedding of [src/mokei/websocket.py] (the server route) and
    [src/mokei/wsclient.py] (the reconnecting client), with the properties
    of their natural-language specification stated and proved on it.

    Conventions of the embedding.
    - A Python [str] is the list of its code points ([pystr]).
    - Coroutines are functions in a small monad [M] that threads the mutable
      object they work on, records every call that leaves the component
      (a transport send, an application handler) in a trace, and returns
      either a value or the exception that was raised.
    - Whatever lies outside the component is an oracle: the transport
      decides whether [send_str] succeeds, application handlers decide
      whether they return or raise.  An oracle sees the whole history of
      calls made so far, so its answers may change over time.  Handlers do
      not reach back into the object that dispatches to them.
    - [asyncio.gather] starts every awaitable in the order given, lets each
      one run to completion, and reports the first exception raised; each
      awaitable is run as one uninterrupted step.
    - Python floats are replaced by exact rationals in the backoff
      arithmetic, and are left out of the JSON values: a JSON text that
      holds a float literal ends in [Unmodelled]. *)

From Stdlib Require Import ZArith NArith QArith Qminmax Lia Lqa Ascii String.
From Stdlib Require Import Decimal DecimalN.
From stdpp Require Import base gmap sets list.

#[local] Set Warnings "-clear-no-such-hyp".
Local Open Scope N_scope.

(** ** Python data *)

(** A [str]: its code points, in order. *)
Definition pystr : Type := list N.

(** The code points of an ASCII literal. *)
Definition str (s : string) : pystr :=
  List.map N_of_ascii (list_ascii_of_string s).

(** The objects [json.loads] builds and [json.dumps] accepts here: [None],
    [bool], [int], [str], [list], and [dict] with [str] keys, kept in
    insertion order. *)
#[warnings="-register-all"]
Inductive pyobj : Type :=
| PyNone
| PyBool (b : bool)
| PyInt (z : Z)
| PyStr (s : pystr)
| PyList (l : list pyobj)
| PyDict (d : list (pystr * pyobj)).

(** Induction on objects, with the hypothesis on every element of a [list]
    and every value of a [dict]. *)
Section pyobj_nested_ind.
Variable P : pyobj → Prop.
Hypothesis HNone : P PyNone.
Hypothesis HBool : ∀ b, P (PyBool b).
Hypothesis HInt : ∀ z, P (PyInt z).
Hypothesis HStr : ∀ s, P (PyStr s).
Hypothesis HList : ∀ l, Forall P l → P (PyList l).
Hypothesis HDict : ∀ d, Forall (fun kv => P (snd kv)) d → P (PyDict d).

Fixpoint pyobj_nested_ind (o : pyobj) : P o :=
  match o with
  | PyNone => HNone
  | PyBool b => HBool b
  | PyInt z => HInt z
  | PyStr s => HStr s
  | PyList l =>
      HList l
        ((fix go (l : list pyobj) : Forall P l :=
            match l with
            | [] => Forall_nil_2 P
            | x :: l' => Forall_cons_2 P x l' (pyobj_nested_ind x) (go l')
            end) l)
  | PyDict d =>
      HDict d
        ((fix go (d : list (pystr * pyobj)) : Forall (fun kv => P (snd kv)) d :=
            match d with
            | [] => Forall_nil_2 _
            | (k, v) :: d' =>
                Forall_cons_2 (fun kv => P (snd kv)) (k, v) d' (pyobj_nested_ind v) (go d')
            end) d)
  end.

End pyobj_nested_ind.

(** Exceptions that can cross the component. *)
Inductive exn : Type :=
| ConnectionResetError
| JSONDecodeError
| TypeError
| AttributeError
| KeyError
| AppError (tag : N).

#[global] Instance exn_eq_dec : EqDecision exn.
Proof. solve_decision. Defined.

(** How a call ends: it returns, it raises, or it leaves the embedding. *)
Inductive outcome (A : Type) : Type :=
| Ok (a : A)
| Raise (e : exn)
| Unmodelled.
Arguments Ok {A} a.
Arguments Raise {A} e.
Arguments Unmodelled {A}.

Definition outcome_bind {A B} (r : outcome A) (f : A -> outcome B) : outcome B :=
  match r with
  | Ok a => f a
  | Raise e => Raise e
  | Unmodelled => Unmodelled
  end.

Notation "'let+' x ':=' r 'in' k" := (outcome_bind r (fun x => k))
  (at level 10, x pattern, r at level 100, k at level 200).

(** [s.startswith(prefix)] *)
Fixpoint startswith (s prefix : pystr) {struct prefix} : bool :=
  match prefix with
  | [] => true
  | p :: prefix' =>
      match s with
      | c :: s' => (c =? p) && startswith s' prefix'
      | [] => false
      end
  end.

(** [sub in s] for two strings *)
Fixpoint str_contains (s sub : pystr) : bool :=
  startswith s sub ||
  match s with
  | [] => false
  | _ :: s' => str_contains s' sub
  end.

(** [bool(o)] *)
Definition truthy (o : pyobj) : bool :=
  match o with
  | PyNone => false
  | PyBool b => b
  | PyInt z => negb (z =? 0)%Z
  | PyStr s => negb (bool_decide (s = []))
  | PyList l => negb (bool_decide (l = []))
  | PyDict d => negb (bool_decide (d = []))
  end.

(** Lookup of a key in a [dict]. *)
Fixpoint dict_lookup (d : list (pystr * pyobj)) (key : pystr) : option pyobj :=
  match d with
  | [] => None
  | (k, v) :: d' => if bool_decide (k = key) then Some v else dict_lookup d' key
  end.

(** [d[key] = value] on a [dict]: a present key keeps its place. *)
Fixpoint dict_setitem (d : list (pystr * pyobj)) (key : pystr) (value : pyobj)
    : list (pystr * pyobj) :=
  match d with
  | [] => [(key, value)]
  | (k, v) :: d' =>
      if bool_decide (k = key) then (k, value) :: d'
      else (k, v) :: dict_setitem d' key value
  end.

(** [o.get(key)]: only a [dict] has the method. *)
Definition py_get (o : pyobj) (key : pystr) : outcome pyobj :=
  match o with
  | PyDict d => Ok (default PyNone (dict_lookup d key))
  | _ => Raise AttributeError
  end.

(** [key in o] for a [str] key. *)
Definition py_contains (o : pyobj) (key : pystr) : outcome bool :=
  match o with
  | PyDict d => Ok (bool_decide (is_Some (dict_lookup d key)))
  | PyList l =>
      Ok (existsb (fun x => match x with
                            | PyStr s => bool_decide (s = key)
                            | _ => false
                            end) l)
  | PyStr s => Ok (str_contains s key)
  | _ => Raise TypeError
  end.

(** [o[key]] for a [str] key. *)
Definition py_getitem (o : pyobj) (key : pystr) : outcome pyobj :=
  match o with
  | PyDict d =>
      match dict_lookup d key with
      | Some v => Ok v
      | None => Raise KeyError
      end
  | _ => Raise TypeError
  end.

(** ** The [json] module of the Python library

    [dumps] with its default settings ([ensure_ascii], separators [", "]
    and [": "]) and [loads] with its default decoder (strict), on the
    objects of [pyobj].  Every syntax error is a [JSONDecodeError]. *)

Module json.

Definition is_ws (c : N) : bool :=
  (c =? 32) || (c =? 9) || (c =? 10) || (c =? 13).

Definition is_digit (c : N) : bool := (48 <=? c) && (c <=? 57).

Fixpoint skip_ws (s : pystr) : pystr :=
  match s with
  | c :: s' => if is_ws c then skip_ws s' else s
  | [] => []
  end.

(** *** Encoder *)

Definition hexdigit (n : N) : N := if n <? 10 then 48 + n else 87 + n.

(** ['\\u{0:04x}'.format(n)] *)
Definition u_escape (n : N) : pystr :=
  [92; 117; hexdigit (n / 4096 mod 16); hexdigit (n / 256 mod 16);
   hexdigit (n / 16 mod 16); hexdigit (n mod 16)].

(** One character of [py_encode_basestring_ascii]. *)
Definition escape_char (c : N) : pystr :=
  if c =? 34 then [92; 34]
  else if c =? 92 then [92; 92]
  else if c =? 10 then [92; 110]
  else if c =? 13 then [92; 114]
  else if c =? 9 then [92; 116]
  else if c =? 12 then [92; 102]
  else if c =? 8 then [92; 98]
  else if (32 <=? c) && (c <=? 126) then [c]
  else if c <? 65536 then u_escape c
  else
    let n := c - 65536 in
    u_escape (N.lor 55296 (N.land (N.shiftr n 10) 1023))
    ++ u_escape (N.lor 56320 (N.land n 1023)).

Definition encode_basestring_ascii (s : pystr) : pystr :=
  [34] ++ flat_map escape_char s ++ [34].

Fixpoint uint_chars (d : Decimal.uint) : pystr :=
  match d with
  | Nil => []
  | D0 d => 48 :: uint_chars d
  | D1 d => 49 :: uint_chars d
  | D2 d => 50 :: uint_chars d
  | D3 d => 51 :: uint_chars d
  | D4 d => 52 :: uint_chars d
  | D5 d => 53 :: uint_chars d
  | D6 d => 54 :: uint_chars d
  | D7 d => 55 :: uint_chars d
  | D8 d => 56 :: uint_chars d
  | D9 d => 57 :: uint_chars d
  end.

(** [int.__repr__] *)
Definition int_repr (z : Z) : pystr :=
  match z with
  | Zneg p => 45 :: uint_chars (N.to_uint (Npos p))
  | _ => uint_chars (N.to_uint (Z.to_N z))
  end.

(** [sep.join(items)] *)
Fixpoint join (sep : pystr) (items : list pystr) : pystr :=
  match items with
  | [] => []
  | [x] => x
  | x :: items' => x ++ sep ++ join sep items'
  end.

Fixpoint dumps (o : pyobj) : pystr :=
  match o with
  | PyNone => str "null"
  | PyBool true => str "true"
  | PyBool false => str "false"
  | PyInt z => int_repr z
  | PyStr s => encode_basestring_ascii s
  | PyList l => [91] ++ join (str ", ") (List.map dumps l) ++ [93]
  | PyDict d =>
      [123]
      ++ join (str ", ")
           (List.map (fun '(k, v) => encode_basestring_ascii k ++ str ": " ++ dumps v) d)
      ++ [125]
  end.

(** *** Decoder *)

Definition hexval (c : N) : option N :=
  if is_digit c then Some (c - 48)
  else if (97 <=? c) && (c <=? 102) then Some (c - 87)
  else if (65 <=? c) && (c <=? 70) then Some (c - 55)
  else None.

(** The four hex digits after a backslash-u. *)
Definition _decode_uXXXX (a b c d : N) : outcome N :=
  match hexval a, hexval b, hexval c, hexval d with
  | Some a, Some b, Some c, Some d => Ok (((a * 16 + b) * 16 + c) * 16 + d)
  | _, _, _, _ => Raise JSONDecodeError
  end.

Definition is_high_surrogate (c : N) : bool := (55296 <=? c) && (c <=? 56319).
Definition is_low_surrogate (c : N) : bool := (56320 <=? c) && (c <=? 57343).

(** The one-letter escapes. *)
Definition BACKSLASH (c : N) : option N :=
  if c =? 34 then Some 34
  else if c =? 92 then Some 92
  else if c =? 47 then Some 47
  else if c =? 98 then Some 8
  else if c =? 102 then Some 12
  else if c =? 110 then Some 10
  else if c =? 114 then Some 13
  else if c =? 116 then Some 9
  else None.

Definition push (c : N) (r : outcome (pystr * pystr)) : outcome (pystr * pystr) :=
  let+ (chars, rest) := r in Ok (c :: chars, rest).

(** [scanstring], from the character after the opening quote: the decoded
    string and the text after the closing quote. *)
Fixpoint scanstring (s : pystr) : outcome (pystr * pystr) :=
  match s with
  | [] => Raise JSONDecodeError
  | c :: s1 =>
      if c =? 34 then Ok ([], s1)
      else if c =? 92 then
        match s1 with
        | [] => Raise JSONDecodeError
        | esc :: s2 =>
            if esc =? 117 then
              match s2 with
              | a :: b :: c' :: d :: s3 =>
                  let+ uni := _decode_uXXXX a b c' d in
                  if is_high_surrogate uni then
                    match s3 with
                    | bs :: u :: s4 =>
                        if (bs =? 92) && (u =? 117) then
                          match s4 with
                          | a2 :: b2 :: c2 :: d2 :: s5 =>
                              let+ uni2 := _decode_uXXXX a2 b2 c2 d2 in
                              if is_low_surrogate uni2 then
                                push (65536 + N.lor (N.shiftl (uni - 55296) 10) (uni2 - 56320))
                                     (scanstring s5)
                              else push uni (scanstring s3)
                          | _ => Raise JSONDecodeError
                          end
                        else push uni (scanstring s3)
                    | _ => push uni (scanstring s3)
                    end
                  else push uni (scanstring s3)
              | _ => Raise JSONDecodeError
              end
            else
              match BACKSLASH esc with
              | Some ch => push ch (scanstring s2)
              | None => Raise JSONDecodeError
              end
        end
      else if c <? 32 then Raise JSONDecodeError
      else push c (scanstring s1)
  end.

Definition digit_cons (c : N) (d : Decimal.uint) : Decimal.uint :=
  match c - 48 with
  | 0 => D0 d
  | 1 => D1 d
  | 2 => D2 d
  | 3 => D3 d
  | 4 => D4 d
  | 5 => D5 d
  | 6 => D6 d
  | 7 => D7 d
  | 8 => D8 d
  | _ => D9 d
  end.

(** The longest run of digits at the head of [s]. *)
Fixpoint scan_digits (s : pystr) : Decimal.uint * pystr :=
  match s with
  | c :: s' =>
      if is_digit c then
        match scan_digits s' with
        | (d, rest) => (digit_cons c d, rest)
        end
      else (Nil, s)
  | [] => (Nil, [])
  end.

(** After the integer part: does a fraction ([.] and a digit) or an
    exponent ([e] or [E], an optional sign, a digit) follow? *)
Definition float_follows (s : pystr) : bool :=
  match s with
  | c1 :: c2 :: rest =>
      ((c1 =? 46) && is_digit c2)
      || (((c1 =? 101) || (c1 =? 69))
          && (is_digit c2
              || (((c2 =? 45) || (c2 =? 43))
                  && match rest with
                     | c3 :: _ => is_digit c3
                     | [] => false
                     end)))
  | _ => false
  end.

(** The number at the head of [s], if there is one. *)
Definition match_number (s : pystr) : option (outcome (pyobj * pystr)) :=
  let '(negative, s1) :=
    match s with
    | c :: r => if c =? 45 then (true, r) else (false, s)
    | [] => (false, s)
    end in
  let finish (d : Decimal.uint) (rest : pystr) : option (outcome (pyobj * pystr)) :=
    Some (if float_follows rest then Unmodelled
          else Ok (PyInt (if negative then - Z.of_N (N.of_uint d)
                          else Z.of_N (N.of_uint d))%Z, rest)) in
  match s1 with
  | c :: r =>
      if c =? 48 then finish (D0 Nil) r
      else if (49 <=? c) && (c <=? 57) then
        match scan_digits r with
        | (d, rest) => finish (digit_cons c d) rest
        end
      else None
  | [] => None
  end.

(** [dict(pairs)] *)
Definition dict_of_pairs (pairs : list (pystr * pyobj)) : list (pystr * pyobj) :=
  fold_left (fun d '(k, v) => dict_setitem d k v) pairs [].

(** [scan_once], with the array and object loops; [fuel] bounds the depth of
    the calls. *)
Fixpoint scan_once (fuel : nat) (s : pystr) {struct fuel} : outcome (pyobj * pystr) :=
  match fuel with
  | O => Unmodelled
  | S fuel =>
      match s with
      | [] => Raise JSONDecodeError
      | c :: s1 =>
          if c =? 34 then
            let+ (chars, rest) := scanstring s1 in Ok (PyStr chars, rest)
          else if c =? 123 then
            match skip_ws s1 with
            | c' :: s2 =>
                if c' =? 125 then Ok (PyDict [], s2)
                else let+ (pairs, rest) := object_items fuel (c' :: s2) in
                     Ok (PyDict (dict_of_pairs pairs), rest)
            | [] => Raise JSONDecodeError
            end
          else if c =? 91 then
            match skip_ws s1 with
            | c' :: s2 =>
                if c' =? 93 then Ok (PyList [], s2)
                else let+ (values, rest) := array_items fuel (c' :: s2) in
                     Ok (PyList values, rest)
            | [] => Raise JSONDecodeError
            end
          else if startswith s (str "null") then Ok (PyNone, drop 4 s)
          else if startswith s (str "true") then Ok (PyBool true, drop 4 s)
          else if startswith s (str "false") then Ok (PyBool false, drop 5 s)
          else if startswith s (str "NaN") || startswith s (str "Infinity")
                  || startswith s (str "-Infinity") then Unmodelled
          else
            match match_number s with
            | Some r => r
            | None => Raise JSONDecodeError
            end
      end
  end
with array_items (fuel : nat) (s : pystr) {struct fuel} : outcome (list pyobj * pystr) :=
  match fuel with
  | O => Unmodelled
  | S fuel =>
      let+ (value, s1) := scan_once fuel s in
      match skip_ws s1 with
      | c :: s2 =>
          if c =? 93 then Ok ([value], s2)
          else if c =? 44 then
            let+ (values, rest) := array_items fuel (skip_ws s2) in
            Ok (value :: values, rest)
          else Raise JSONDecodeError
      | [] => Raise JSONDecodeError
      end
  end
with object_items (fuel : nat) (s : pystr) {struct fuel}
    : outcome (list (pystr * pyobj) * pystr) :=
  match fuel with
  | O => Unmodelled
  | S fuel =>
      match s with
      | c :: s1 =>
          if c =? 34 then
            let+ (key, s2) := scanstring s1 in
            match skip_ws s2 with
            | c2 :: s3 =>
                if c2 =? 58 then
                  let+ (value, s4) := scan_once fuel (skip_ws s3) in
                  match skip_ws s4 with
                  | c3 :: s5 =>
                      if c3 =? 125 then Ok ([(key, value)], s5)
                      else if c3 =? 44 then
                        let+ (pairs, rest) := object_items fuel (skip_ws s5) in
                        Ok ((key, value) :: pairs, rest)
                      else Raise JSONDecodeError
                  | [] => Raise JSONDecodeError
                  end
                else Raise JSONDecodeError
            | [] => Raise JSONDecodeError
            end
          else Raise JSONDecodeError
      | [] => Raise JSONDecodeError
      end
  end.

(** [json.loads(s)]: one value, with white space around it and nothing
    else. *)
Definition loads (s : pystr) : outcome pyobj :=
  if startswith s [65279] then Raise JSONDecodeError
  else
    let+ (obj, rest) := scan_once (S (length s)) (skip_ws s) in
    match skip_ws rest with
    | [] => Ok obj
    | _ :: _ => Raise JSONDecodeError
    end.

End json.

(** *** Notions for reasoning about the codec *)

Module json_facts.
Import json.

(** What [dumps] puts after a value: nothing, a comma, or a closing
    bracket or brace. *)
Definition value_end (rest : pystr) : Prop :=
  match rest with
  | [] => True
  | c :: _ => c = 44 ∨ c = 93 ∨ c = 125
  end.

(** The first character of an encoded value. *)
Definition value_start (s : pystr) : Prop :=
  ∃ c s', s = c :: s' ∧ is_ws c = false ∧ c ≠ 93 ∧ c ≠ 125 ∧ c ≠ 65279.

(** No escaped low surrogate at the head of [s]. *)
Definition no_low_ahead (s : pystr) : Prop :=
  match s with
  | bs :: u :: s4 =>
      (bs =? 92) && (u =? 117) = false
      ∨ ∃ a b c d s5 uni, s4 = a :: b :: c :: d :: s5
          ∧ _decode_uXXXX a b c d = Ok uni ∧ is_low_surrogate uni = false
  | _ => True
  end.

(** One [key: value] item of an encoded [dict]. *)
Definition dumps_item (kv : pystr * pyobj) : pystr :=
  let '(k, v) := kv in encode_basestring_ascii k ++ str ": " ++ dumps v.

(** A value that the codec returns unchanged, when enough fuel is given. *)
Definition roundtrips (o : pyobj) : Prop :=
  ∀ fuel rest, (length (dumps o) ≤ fuel)%nat → value_end rest →
    scan_once fuel (dumps o ++ rest) = Ok (o, rest).

End json_facts.

(** *** Objects as Python has them, and the strings the codec keeps

    A [str] holds code points below [0x110000] and a [dict] holds each key
    once.  The decoder joins an escaped high surrogate and an escaped low
    surrogate that follows it into one character, so a [str] that holds
    such a pair as two code points does not come back from the codec. *)

Definition str_well_formed (s : pystr) : bool :=
  forallb (fun c => c <? 1114112) s.

Fixpoint well_formed (o : pyobj) : bool :=
  match o with
  | PyStr s => str_well_formed s
  | PyList l => forallb well_formed l
  | PyDict d =>
      bool_decide (NoDup (List.map fst d))
      && forallb (fun '(k, v) => str_well_formed k && well_formed v) d
  | _ => true
  end.

Fixpoint surrogate_pair_free (s : pystr) : bool :=
  match s with
  | c1 :: s' =>
      negb (json.is_high_surrogate c1
            && match s' with
               | c2 :: _ => json.is_low_surrogate c2
               | [] => false
               end)
      && surrogate_pair_free s'
  | [] => true
  end.

Fixpoint no_surrogate_pairs (o : pyobj) : bool :=
  match o with
  | PyStr s => surrogate_pair_free s
  | PyList l => forallb no_surrogate_pairs l
  | PyDict d => forallb (fun '(k, v) => surrogate_pair_free k && no_surrogate_pairs v) d
  | _ => true
  end.

(** ** Connections, handlers and the world outside *)

(** A live connection.  Python compares and hashes the objects by identity;
    [id] stands for that identity. *)
Record connection : Type := { id : N }.

#[global] Instance connection_eq_dec : EqDecision connection.
Proof. solve_decision. Defined.

#[global] Instance connection_countable : Countable connection :=
  inj_countable' id (fun n => {| id := n |})
    (fun w => match w with Build_connection _ => eq_refl end).

(** An application handler, known by the name it was registered under. *)
Record handler : Type := { hname : N }.

(** Calls that leave the component. *)
Inductive action : Type :=
| SendStr (ws : connection) (message : pystr)
| CallText (h : handler) (ws : connection) (message : pystr)
| CallEvent (h : handler) (ws : connection) (data : pyobj).

(** The world outside: for each call, given the history so far, [None] when
    it returns and [Some e] when it raises [e]. *)
Record env : Type := {
  send_str : list action -> connection -> pystr -> option exn;
  text_handler : list action -> handler -> connection -> pystr -> option exn;
  event_handler : list action -> handler -> connection -> pyobj -> option exn;
}.

(** ** The monad of coroutines *)

Module Coro.

Definition M (S A : Type) : Type :=
  list action -> S -> outcome A * S * list action.

Definition ret {S A} (a : A) : M S A := fun _ s => (Ok a, s, []).

Definition raise {S A} (e : exn) : M S A := fun _ s => (Raise e, s, []).

(** A pure computation that may raise. *)
Definition lift {S A} (r : outcome A) : M S A := fun _ s => (r, s, []).

Definition bind {S A B} (m : M S A) (f : A -> M S B) : M S B :=
  fun h s =>
    match m h s with
    | (Ok a, s1, t1) =>
        match f a (h ++ t1) s1 with
        | (r, s2, t2) => (r, s2, t1 ++ t2)
        end
    | (Raise e, s1, t1) => (Raise e, s1, t1)
    | (Unmodelled, s1, t1) => (Unmodelled, s1, t1)
    end.

Definition get {S} : M S S := fun _ s => (Ok s, s, []).

Definition modify {S} (f : S -> S) : M S unit := fun _ s => (Ok tt, f s, []).

(** [try: m except e: handle e] *)
Definition try_except {S A} (m : M S A) (handle : exn -> M S A) : M S A :=
  fun h s =>
    match m h s with
    | (Raise e, s1, t1) =>
        match handle e (h ++ t1) s1 with
        | (r, s2, t2) => (r, s2, t1 ++ t2)
        end
    | r => r
    end.

(** One call to the outside: recorded, and answered by the oracle. *)
Definition call {S} (a : action) (answer : list action -> option exn) : M S unit :=
  fun h s =>
    (match answer h with None => Ok tt | Some e => Raise e end, s, [a]).

(** [for x in xs: body x] *)
Fixpoint for_each {S X} (xs : list X) (body : X -> M S unit) : M S unit :=
  match xs with
  | [] => ret tt
  | x :: xs' => bind (body x) (fun _ => for_each xs' body)
  end.

(** The first of two endings that is not a plain return. *)
Definition first_failure (r1 r2 : outcome unit) : outcome unit :=
  match r1 with
  | Ok _ => r2
  | _ => r1
  end.

(** [await asyncio.gather] over the awaitables [ms] *)
Fixpoint gather {S} (ms : list (M S unit)) : M S unit :=
  fun h s =>
    match ms with
    | [] => (Ok tt, s, [])
    | m :: ms' =>
        match m h s with
        | (r1, s1, t1) =>
            match gather ms' (h ++ t1) s1 with
            | (r2, s2, t2) => (first_failure r1 r2, s2, t1 ++ t2)
            end
        end
    end.

End Coro.

Import Coro.

Notation "'let*' x ':=' m 'in' k" := (bind m (fun x => k))
  (at level 10, x pattern, m at level 100, k at level 200).
Notation "m ;; k" := (bind m (fun _ => k))
  (at level 100, k at level 200, right associativity).

(** ** websocket.py: the server route *)

Module websocket.

(** [_MEM = 'μοκιε'] *)
Definition _MEM : pystr := [956; 959; 954; 953; 949].

(** The route's connection handles. *)
Abbreviation MokeiWebSocket := connection.

Record MokeiWebSocketRoute : Type := {
  path : pystr;
  _onconnect_handlers : list handler;
  _ondisconnect_handlers : list handler;
  _ontext_handlers : list handler;
  _onbinary_handlers : list handler;
  _onevent_handlers : gmap pystr (list handler);
  sockets : gset MokeiWebSocket;
}.

Definition __init__ (path : pystr) : MokeiWebSocketRoute :=
  {| path := path;
     _onconnect_handlers := [];
     _ondisconnect_handlers := [];
     _ontext_handlers := [];
     _onbinary_handlers := [];
     _onevent_handlers := ∅;
     sockets := ∅ |}.

Definition set_sockets (f : gset MokeiWebSocket -> gset MokeiWebSocket)
    (self : MokeiWebSocketRoute) : MokeiWebSocketRoute :=
  {| path := path self;
     _onconnect_handlers := _onconnect_handlers self;
     _ondisconnect_handlers := _ondisconnect_handlers self;
     _ontext_handlers := _ontext_handlers self;
     _onbinary_handlers := _onbinary_handlers self;
     _onevent_handlers := _onevent_handlers self;
     sockets := f (sockets self) |}.

(** [on(event)(handler)]: [self._onevent_handlers[event].append(handler)] on
    a [defaultdict(list)]. *)
Definition on (event : pystr) (h : handler) (self : MokeiWebSocketRoute)
    : MokeiWebSocketRoute :=
  {| path := path self;
     _onconnect_handlers := _onconnect_handlers self;
     _ondisconnect_handlers := _ondisconnect_handlers self;
     _ontext_handlers := _ontext_handlers self;
     _onbinary_handlers := _onbinary_handlers self;
     _onevent_handlers :=
       <[event := default [] (_onevent_handlers self !! event) ++ [h]]>
         (_onevent_handlers self);
     sockets := sockets self |}.

(** [ontext(handler)] *)
Definition ontext (h : handler) (self : MokeiWebSocketRoute) : MokeiWebSocketRoute :=
  {| path := path self;
     _onconnect_handlers := _onconnect_handlers self;
     _ondisconnect_handlers := _ondisconnect_handlers self;
     _ontext_handlers := _ontext_handlers self ++ [h];
     _onbinary_handlers := _onbinary_handlers self;
     _onevent_handlers := _onevent_handlers self;
     sockets := sockets self |}.

(** [self._onevent_handlers.get(event)]: [None] for a missing key (the
    [get] of a [defaultdict] creates nothing), [TypeError] for a key that
    cannot be hashed.  The keys are the [str] given to [on]. *)
Definition handlers_get (handlers : gmap pystr (list handler)) (event : pyobj)
    : outcome (option (list handler)) :=
  match event with
  | PyStr s => Ok (handlers !! s)
  | PyList _ | PyDict _ => Raise TypeError
  | _ => Ok None
  end.

(** The [exclude] argument of [send_text]: omitted, one handle, or an
    iterable of handles. *)
Inductive exclude_arg : Type :=
| ExcludeNone
| ExcludeSocket (ws : MokeiWebSocket)
| ExcludeIterable (wss : list MokeiWebSocket).

(** [exclude = exclude or ()], then a single handle becomes [(exclude,)]. *)
Definition harmonize_exclude (exclude : exclude_arg) : list MokeiWebSocket :=
  match exclude with
  | ExcludeNone => []
  | ExcludeSocket ws => [ws]
  | ExcludeIterable wss => wss
  end.

(** [if x in s: s.remove(x)] *)
Definition discard (x : MokeiWebSocket) (s : gset MokeiWebSocket) : gset MokeiWebSocket :=
  if decide (x ∈ s) then s ∖ {[x]} else s.

(** The set of recipients: the targets when there are some, all [sockets]
    otherwise, and then without the excluded handles. *)
Definition recipient_sockets (self : MokeiWebSocketRoute)
    (target : list MokeiWebSocket) (exclude : exclude_arg) : gset MokeiWebSocket :=
  let recipient_sockets : gset MokeiWebSocket :=
    match target with
    | [] => sockets self
    | _ => list_to_set target
    end in
  foldl (fun rs socket_to_remove => discard socket_to_remove rs)
        recipient_sockets (harmonize_exclude exclude).

(** While [send_text] runs, its state is the route together with the local
    list [remove_sockets] that the inner coroutine appends to. *)
Definition send_state : Type := MokeiWebSocketRoute * list MokeiWebSocket.

Section Route.
Variable E : env.

(** [_ontext_handler(ws, message)] *)
Definition _ontext_handler (ws : MokeiWebSocket) (message : pystr)
    : M MokeiWebSocketRoute unit :=
  if startswith message _MEM then
    let* event_dict := lift (json.loads (drop (length _MEM) message)) in
    let* event := lift (py_get event_dict (str "event")) in
    let* data_dict := lift (py_get event_dict (str "data")) in
    if negb (truthy event) then ret tt
    else
      let* self := get in
      let* handlers := lift (handlers_get (_onevent_handlers self) event) in
      match handlers with
      | None => raise TypeError
      | Some handlers =>
          gather (List.map
                    (fun handler =>
                       call (CallEvent handler ws data_dict)
                            (fun h => event_handler E h handler ws data_dict))
                    handlers)
      end
  else
    let* self := get in
    gather (List.map
              (fun handler =>
                 call (CallText handler ws message)
                      (fun h => text_handler E h handler ws message))
              (_ontext_handlers self)).

(** The inner coroutine [send_to_single_ws]. *)
Definition send_to_single_ws (_message : pystr) (_ws : MokeiWebSocket) : M send_state unit :=
  try_except
    (call (SendStr _ws _message) (fun h => send_str E h _ws _message))
    (fun e =>
       match e with
       | ConnectionResetError =>
           modify (fun st : send_state =>
                     (set_sockets (discard _ws) (fst st), snd st ++ [_ws]))
       | _ => raise e
       end).

Definition send_text_body (message : pystr) (target : list MokeiWebSocket)
    (exclude : exclude_arg) : M send_state unit :=
  let* st := get in
  gather (List.map (send_to_single_ws message)
            (elements (recipient_sockets (fst st) target exclude))) ;;
  let* st' := get in
  for_each (snd st')
    (fun socket_to_remove =>
       modify (fun st : send_state =>
                 (set_sockets (discard socket_to_remove) (fst st), snd st))).

(** [send_text], with the variadic [target] as a list. *)
Definition send_text (message : pystr) (target : list MokeiWebSocket)
    (exclude : exclude_arg) : M MokeiWebSocketRoute unit :=
  fun h self =>
    match send_text_body message target exclude h (self, []) with
    | (r, st, t) => (r, fst st, t)
    end.

(** The text [send_event] hands to [send_text]. *)
Definition event_message (event : pystr) (data : pyobj) : pystr :=
  _MEM ++ json.dumps (PyDict [(str "event", PyStr event); (str "data", data)]).

(** [send_event] *)
Definition send_event (event : pystr) (data : pyobj) (target : list MokeiWebSocket)
    (exclude : exclude_arg) : M MokeiWebSocketRoute unit :=
  let message := event_message event data in
  send_text message target exclude.

End Route.

End websocket.

(** ** wsclient.py: the reconnecting client *)

Module wsclient.

(** [_MEM = 'μοκιε'] *)
Definition _MEM : pystr := [956; 959; 954; 953; 949].

Record MokeiWebSocketClient : Type := {
  url : pystr;
  _ws : option connection;
  _default_backoff : Q;
  _current_backoff : Q;
  _max_backoff : Q;
  _unsent_messages : list pystr;
  _onconnect_handlers : list handler;
  _ontext_handlers : list handler;
  _ondisconnect_handlers : list handler;
  _handlers : gmap pystr (list handler);
}.

Definition __init__ (url : pystr) : MokeiWebSocketClient :=
  {| url := url;
     _ws := None;
     _default_backoff := 1;
     _current_backoff := 1;
     _max_backoff := 15;
     _unsent_messages := [];
     _onconnect_handlers := [];
     _ontext_handlers := [];
     _ondisconnect_handlers := [];
     _handlers := ∅ |}.

Definition set_current_backoff (x : Q) (self : MokeiWebSocketClient) : MokeiWebSocketClient :=
  {| url := url self;
     _ws := _ws self;
     _default_backoff := _default_backoff self;
     _current_backoff := x;
     _max_backoff := _max_backoff self;
     _unsent_messages := _unsent_messages self;
     _onconnect_handlers := _onconnect_handlers self;
     _ontext_handlers := _ontext_handlers self;
     _ondisconnect_handlers := _ondisconnect_handlers self;
     _handlers := _handlers self |}.

Definition set_unsent_messages (q : list pystr) (self : MokeiWebSocketClient)
    : MokeiWebSocketClient :=
  {| url := url self;
     _ws := _ws self;
     _default_backoff := _default_backoff self;
     _current_backoff := _current_backoff self;
     _max_backoff := _max_backoff self;
     _unsent_messages := q;
     _onconnect_handlers := _onconnect_handlers self;
     _ontext_handlers := _ontext_handlers self;
     _ondisconnect_handlers := _ondisconnect_handlers self;
     _handlers := _handlers self |}.

Definition set_handlers (m : gmap pystr (list handler)) (self : MokeiWebSocketClient)
    : MokeiWebSocketClient :=
  {| url := url self;
     _ws := _ws self;
     _default_backoff := _default_backoff self;
     _current_backoff := _current_backoff self;
     _max_backoff := _max_backoff self;
     _unsent_messages := _unsent_messages self;
     _onconnect_handlers := _onconnect_handlers self;
     _ontext_handlers := _ontext_handlers self;
     _ondisconnect_handlers := _ondisconnect_handlers self;
     _handlers := m |}.

Definition set_ws (ws : option connection) (self : MokeiWebSocketClient)
    : MokeiWebSocketClient :=
  {| url := url self;
     _ws := ws;
     _default_backoff := _default_backoff self;
     _current_backoff := _current_backoff self;
     _max_backoff := _max_backoff self;
     _unsent_messages := _unsent_messages self;
     _onconnect_handlers := _onconnect_handlers self;
     _ontext_handlers := _ontext_handlers self;
     _ondisconnect_handlers := _ondisconnect_handlers self;
     _handlers := _handlers self |}.

(** [ontext(handler)] *)
Definition ontext (h : handler) (self : MokeiWebSocketClient) : MokeiWebSocketClient :=
  {| url := url self;
     _ws := _ws self;
     _default_backoff := _default_backoff self;
     _current_backoff := _current_backoff self;
     _max_backoff := _max_backoff self;
     _unsent_messages := _unsent_messages self;
     _onconnect_handlers := _onconnect_handlers self;
     _ontext_handlers := _ontext_handlers self ++ [h];
     _ondisconnect_handlers := _ondisconnect_handlers self;
     _handlers := _handlers self |}.

(** [on(event)(fn)] *)
Definition on (event : pystr) (fn : handler) (self : MokeiWebSocketClient)
    : MokeiWebSocketClient :=
  set_handlers (<[event := default [] (_handlers self !! event) ++ [fn]]> (_handlers self)) self.

(** [_get_backoff], where [u] is the value [random.random()] returns. *)
Definition _get_backoff (u : Q) (self : MokeiWebSocketClient) : Q * MokeiWebSocketClient :=
  let backoff := _current_backoff self in
  let self := set_current_backoff (_current_backoff self + _current_backoff self * u)%Q self in
  let self := set_current_backoff (Qmin (_current_backoff self) (_max_backoff self)) self in
  (backoff, self).

Definition _reset_backoff (self : MokeiWebSocketClient) : MokeiWebSocketClient :=
  set_current_backoff (_default_backoff self) self.

(** Successive calls of [_get_backoff], one per random value: the values
    returned, and the client afterwards. *)
Fixpoint backoffs (us : list Q) (self : MokeiWebSocketClient)
    : list Q * MokeiWebSocketClient :=
  match us with
  | [] => ([], self)
  | u :: us' =>
      match _get_backoff u self with
      | (b, self1) =>
          match backoffs us' self1 with
          | (bs, self2) => (b :: bs, self2)
          end
      end
  end.

Section Client.
Variable E : env.

(** [self._handlers[event]] on a [defaultdict(list)]: a missing key is
    created with an empty list; a key that cannot be hashed is a
    [TypeError].  The map keeps the [str] keys; under any other key there
    can only be the empty list. *)
Definition handlers_getitem (event : pyobj) : M MokeiWebSocketClient (list handler) :=
  match event with
  | PyStr s =>
      let* self := get in
      match _handlers self !! s with
      | Some handlers => ret handlers
      | None => modify (set_handlers (<[s := []]> (_handlers self))) ;; ret []
      end
  | PyList _ | PyDict _ => raise TypeError
  | _ => ret []
  end.

(** [_ontext_handler(ws, msg)] *)
Definition _ontext_handler (ws : connection) (msg : pystr)
    : M MokeiWebSocketClient unit :=
  let text_handlers : M MokeiWebSocketClient unit :=
    let* self := get in
    gather (List.map
              (fun handler =>
                 call (CallText handler ws msg)
                      (fun h => text_handler E h handler ws msg))
              (_ontext_handlers self)) in
  if startswith msg _MEM then
    let* event_data := lift (json.loads (drop (length _MEM) msg)) in
    let* has_event := lift (py_contains event_data (str "event")) in
    let* incomplete :=
      (if negb has_event then ret true
       else let* has_data := lift (py_contains event_data (str "data")) in
            ret (negb has_data)) in
    if incomplete : bool then ret tt
    else
      let* event := lift (py_getitem event_data (str "event")) in
      let* data := lift (py_getitem event_data (str "data")) in
      let* handlers := handlers_getitem event in
      gather (List.map
                (fun handler =>
                   call (CallEvent handler ws data)
                        (fun h => event_handler E h handler ws data))
                handlers) ;;
      text_handlers
  else text_handlers.

(** One turn of the loop of [_send_unsent_messages]; [true] when the loop
    goes on. *)
Definition drain_step : M MokeiWebSocketClient bool :=
  let* self := get in
  match _unsent_messages self with
  | [] => ret false
  | message :: _ =>
      try_except
        (match _ws self with
         | None => ret false
         | Some ws =>
             call (SendStr ws message) (fun h => send_str E h ws message) ;;
             modify (fun self => set_unsent_messages (tail (_unsent_messages self)) self) ;;
             ret true
         end)
        (fun e =>
           match e with
           | ConnectionResetError => ret false
           | _ => raise e
           end)
  end.

Fixpoint drain_loop (fuel : nat) : M MokeiWebSocketClient unit :=
  match fuel with
  | O => fun _ self => (Unmodelled, self, [])
  | S fuel =>
      let* again := drain_step in
      if again : bool then drain_loop fuel else ret tt
  end.

(** [_send_unsent_messages]: every turn but the last removes a message, so
    the loop ends within [len(self._unsent_messages) + 1] turns. *)
Definition _send_unsent_messages : M MokeiWebSocketClient unit :=
  let* self := get in
  drain_loop (S (length (_unsent_messages self))).

(** [send(text)] *)
Definition send (text : pystr) : M MokeiWebSocketClient unit :=
  modify (fun self => set_unsent_messages (_unsent_messages self ++ [text]) self) ;;
  _send_unsent_messages.

End Client.

(** What a drain of the queue [q] of [self], started after the history [h],
    may end in: it returned normally; the first [k] messages are gone from
    the queue and the rest is still there in order; with no connection
    nothing was sent; on a connection [ws] the sends were attempted in queue
    order, each of the [k] removed messages was handed over successfully,
    and either the queue was exhausted or the send of the message now at
    the head was the last attempt and failed. *)
Definition drained (E : env) (h : list action) (self : MokeiWebSocketClient)
    (q : list pystr) (result : outcome unit * MokeiWebSocketClient * list action) : Prop :=
  ∃ (k : nat) (trace : list action),
    result = (Ok tt, set_unsent_messages (drop k q) self, trace)
    ∧ (k ≤ length q)%nat
    ∧ match _ws self with
      | None => k = 0%nat ∧ trace = []
      | Some ws =>
          (∀ i m, (i < k)%nat → q !! i = Some m →
             send_str E (h ++ List.map (SendStr ws) (take i q)) ws m = None)
          ∧ ((k = length q ∧ trace = List.map (SendStr ws) q)
             ∨ (∃ m, q !! k = Some m
                  ∧ trace = List.map (SendStr ws) (take (S k) q)
                  ∧ send_str E (h ++ List.map (SendStr ws) (take k q)) ws m
                    = Some ConnectionResetError))
      end.

End wsclient.

(** ** websocket.py: the methods of a connection handle *)

Module handle.

Section Handle.
Variable E : env.

(** [MokeiWebSocket.send_text(message)]:
    [self._route.send_text(message, self)] *)
Definition send_text (self : connection) (message : pystr)
    : M websocket.MokeiWebSocketRoute unit :=
  websocket.send_text E message [self] websocket.ExcludeNone.

(** [MokeiWebSocket.send_event(event, data)] *)
Definition send_event (self : connection) (event : pystr) (data : pyobj)
    : M websocket.MokeiWebSocketRoute unit :=
  websocket.send_event E event data [self] websocket.ExcludeNone.

End Handle.

End handle.

(** The send to [x], at its turn in a fan-out over [l] begun after the
    history [h], raised [e]. *)
Definition raised_at (E : env) (h : list action) (message : pystr)
    (l : list connection) (x : connection) (e : exn) : Prop :=
  ∃ l1 l2, l = l1 ++ x :: l2
    ∧ send_str E (h ++ List.map (fun w => SendStr w message) l1) x message = Some e.

(** A trace in which nothing is sent. *)
Definition no_send (t : list action) : Prop := ∀ w m, SendStr w m ∉ t.

(** ** The life of a connection

    Connect, disconnect and binary handlers, and the sleep between two
    connection attempts, are calls to the outside as well.  [step] adds them
    to the calls of [action]; the oracles of [env] go on seeing the calls of
    [action] only. *)

Module Life.

Inductive step : Type :=
| Did (a : action)
| CallConnect (h : handler) (ws : connection)
| CallDisconnect (h : handler) (ws : connection)
| CallBinary (h : handler) (ws : connection) (message : list N)
| Sleep (seconds : Q).

(** The calls of [action] in a history. *)
Fixpoint actions (hs : list step) : list action :=
  match hs with
  | [] => []
  | Did a :: hs' => a :: actions hs'
  | _ :: hs' => actions hs'
  end.

Record world : Type := {
  base : env;
  connect_handler : list step -> handler -> connection -> option exn;
  disconnect_handler : list step -> handler -> connection -> option exn;
  binary_handler : list step -> handler -> connection -> list N -> option exn;
}.

Definition L (S A : Type) : Type :=
  list step -> S -> outcome A * S * list step.

Definition ret {S A} (a : A) : L S A := fun _ s => (Ok a, s, []).

Definition bind {S A B} (m : L S A) (f : A -> L S B) : L S B :=
  fun h s =>
    match m h s with
    | (Ok a, s1, t1) =>
        match f a (h ++ t1) s1 with
        | (r, s2, t2) => (r, s2, t1 ++ t2)
        end
    | (Raise e, s1, t1) => (Raise e, s1, t1)
    | (Unmodelled, s1, t1) => (Unmodelled, s1, t1)
    end.

Definition get {S} : L S S := fun _ s => (Ok s, s, []).

Definition modify {S} (f : S -> S) : L S unit := fun _ s => (Ok tt, f s, []).

Definition call {S} (a : step) (answer : list step -> option exn) : L S unit :=
  fun h s =>
    (match answer h with None => Ok tt | Some e => Raise e end, s, [a]).

(** A coroutine of [M], run where it stands. *)
Definition lift_coro {S A} (m : M S A) : L S A :=
  fun h s =>
    match m (actions h) s with
    | (r, s1, t) => (r, s1, List.map Did t)
    end.

(** [await asyncio.gather] over the awaitables [ms] *)
Fixpoint gather {S} (ms : list (L S unit)) : L S unit :=
  fun h s =>
    match ms with
    | [] => (Ok tt, s, [])
    | m :: ms' =>
        match m h s with
        | (r1, s1, t1) =>
            match gather ms' (h ++ t1) s1 with
            | (r2, s2, t2) => (first_failure r1 r2, s2, t1 ++ t2)
            end
        end
    end.

(** [for x in xs: body x] *)
Fixpoint for_each {S X} (xs : list X) (body : X -> L S unit) : L S unit :=
  match xs with
  | [] => ret tt
  | x :: xs' => bind (body x) (fun _ => for_each xs' body)
  end.

End Life.

(** ** websocket.py: connect, disconnect and binary dispatch of the route *)

Module websocket_life.
Import Life websocket.

(** [onconnect(handler)] *)
Definition onconnect (h : handler) (self : MokeiWebSocketRoute) : MokeiWebSocketRoute :=
  {| path := path self;
     _onconnect_handlers := _onconnect_handlers self ++ [h];
     _ondisconnect_handlers := _ondisconnect_handlers self;
     _ontext_handlers := _ontext_handlers self;
     _onbinary_handlers := _onbinary_handlers self;
     _onevent_handlers := _onevent_handlers self;
     sockets := sockets self |}.

(** [ondisconnect(handler)] *)
Definition ondisconnect (h : handler) (self : MokeiWebSocketRoute) : MokeiWebSocketRoute :=
  {| path := path self;
     _onconnect_handlers := _onconnect_handlers self;
     _ondisconnect_handlers := _ondisconnect_handlers self ++ [h];
     _ontext_handlers := _ontext_handlers self;
     _onbinary_handlers := _onbinary_handlers self;
     _onevent_handlers := _onevent_handlers self;
     sockets := sockets self |}.

(** [onbinary(handler)] *)
Definition onbinary (h : handler) (self : MokeiWebSocketRoute) : MokeiWebSocketRoute :=
  {| path := path self;
     _onconnect_handlers := _onconnect_handlers self;
     _ondisconnect_handlers := _ondisconnect_handlers self;
     _ontext_handlers := _ontext_handlers self;
     _onbinary_handlers := _onbinary_handlers self ++ [h];
     _onevent_handlers := _onevent_handlers self;
     sockets := sockets self |}.

Section RouteLife.
Variable W : world.

(** [_onconnect_handler(ws)] *)
Definition _onconnect_handler (ws : connection) : L MokeiWebSocketRoute unit :=
  bind get (fun self =>
    gather (List.map
              (fun handler =>
                 call (CallConnect handler ws) (fun h => connect_handler W h handler ws))
              (_onconnect_handlers self))).

(** [_ondisconnect_handler(ws)] *)
Definition _ondisconnect_handler (ws : connection) : L MokeiWebSocketRoute unit :=
  bind get (fun self =>
    gather (List.map
              (fun handler =>
                 call (CallDisconnect handler ws)
                      (fun h => disconnect_handler W h handler ws))
              (_ondisconnect_handlers self))).

(** [_onbinary_handler(ws, message)] *)
Definition _onbinary_handler (ws : connection) (message : list N)
    : L MokeiWebSocketRoute unit :=
  bind get (fun self =>
    gather (List.map
              (fun handler =>
                 call (CallBinary handler ws message)
                      (fun h => binary_handler W h handler ws message))
              (_onbinary_handlers self))).

End RouteLife.

End websocket_life.

(** ** wsclient.py: the connect loop *)

Module wsclient_life.
Import Life wsclient.

(** [onconnect(handler)] *)
Definition onconnect (h : handler) (self : MokeiWebSocketClient) : MokeiWebSocketClient :=
  {| url := url self;
     _ws := _ws self;
     _default_backoff := _default_backoff self;
     _current_backoff := _current_backoff self;
     _max_backoff := _max_backoff self;
     _unsent_messages := _unsent_messages self;
     _onconnect_handlers := _onconnect_handlers self ++ [h];
     _ontext_handlers := _ontext_handlers self;
     _ondisconnect_handlers := _ondisconnect_handlers self;
     _handlers := _handlers self |}.

(** [ondisconnect(handler)] *)
Definition ondisconnect (h : handler) (self : MokeiWebSocketClient) : MokeiWebSocketClient :=
  {| url := url self;
     _ws := _ws self;
     _default_backoff := _default_backoff self;
     _current_backoff := _current_backoff self;
     _max_backoff := _max_backoff self;
     _unsent_messages := _unsent_messages self;
     _onconnect_handlers := _onconnect_handlers self;
     _ontext_handlers := _ontext_handlers self;
     _ondisconnect_handlers := _ondisconnect_handlers self ++ [h];
     _handlers := _handlers self |}.

(** A message the connection yields while it is read: a text message with
    its data, an error message, or a message of another type. *)
Inductive WSMessage : Type :=
| TEXT (data : pystr)
| ERROR
| OTHER.

(** One connection attempt: [None] when [ws_connect] raises a
    [ClientError], else the connection and the messages it will yield until
    it is closed. *)
Definition attempt : Type := option (connection * list WSMessage).

Section ClientLife.
Variable W : world.

(** [_onconnect_handler(ws)] *)
Definition _onconnect_handler (ws : connection) : L MokeiWebSocketClient unit :=
  bind get (fun self =>
    gather (List.map
              (fun handler =>
                 call (CallConnect handler ws) (fun h => connect_handler W h handler ws))
              (_onconnect_handlers self))).

(** [_ondisconnect_handler(ws)] *)
Definition _ondisconnect_handler (ws : connection) : L MokeiWebSocketClient unit :=
  bind get (fun self =>
    gather (List.map
              (fun handler =>
                 call (CallDisconnect handler ws)
                      (fun h => disconnect_handler W h handler ws))
              (_ondisconnect_handlers self))).

(** [async for msg in ws], with the body of the loop. *)
Fixpoint read_messages (ws : connection) (msgs : list WSMessage)
    : L MokeiWebSocketClient unit :=
  match msgs with
  | [] => ret tt
  | TEXT data :: msgs' =>
      bind (lift_coro (_ontext_handler (base W) ws data))
           (fun _ => read_messages ws msgs')
  | ERROR :: _ => ret tt
  | OTHER :: msgs' => read_messages ws msgs'
  end.

(** The body of [async with session.ws_connect(self.url) as ws], for the
    connection [ws] and the messages it yields. *)
Definition connected (ws : connection) (msgs : list WSMessage)
    : L MokeiWebSocketClient unit :=
  bind (modify _reset_backoff) (fun _ =>
  bind (modify (set_ws (Some ws))) (fun _ =>
  bind (_onconnect_handler ws) (fun _ =>
  bind (lift_coro (_send_unsent_messages (base W))) (fun _ =>
  read_messages ws msgs)))).

(** What follows the [try] statement: the disconnect handlers if [_ws] is
    set, then [_ws = None] and the sleep; [u] is the value
    [random.random()] returns in [_get_backoff]. *)
Definition after_attempt (u : Q) : L MokeiWebSocketClient unit :=
  bind get (fun self =>
  bind (match _ws self with
        | Some ws => _ondisconnect_handler ws
        | None => ret tt
        end) (fun _ =>
  bind (modify (set_ws None)) (fun _ =>
  bind get (fun self =>
  bind (modify (fun self => snd (_get_backoff u self))) (fun _ =>
  call (Sleep (fst (_get_backoff u self))) (fun _ => None)))))).

(** One turn of the [while True] of [connect].  No exception of [exn] is an
    [aiohttp.ClientError]: what is raised while connected leaves the loop. *)
Definition connect_turn (a : attempt) (u : Q) : L MokeiWebSocketClient unit :=
  bind (match a with
        | Some (ws, msgs) => connected ws msgs
        | None => ret tt
        end) (fun _ =>
  after_attempt u).

(** The first turns of the loop of [connect], one per connection attempt;
    an exception ends the loop. *)
Definition connect (turns : list (attempt * Q)) : L MokeiWebSocketClient unit :=
  for_each turns (fun '(a, u) => connect_turn a u).

End ClientLife.

End wsclient_life.

Import websocket.

(** ** Sample data *)

Module Sample.

Definition A : MokeiWebSocket := {| id := 1 |}.
Definition B : MokeiWebSocket := {| id := 2 |}.
Definition C : MokeiWebSocket := {| id := 3 |}.
Definition D : MokeiWebSocket := {| id := 4 |}.

(** A route at ["/ws"] with peers [A], [B], [C] and no handlers. *)
Definition route_abc : MokeiWebSocketRoute :=
  set_sockets (fun _ => {[A; B; C]}) (websocket.__init__ (str "/ws")).

(** A transport on which the peers listed in [gone] are unreachable, and
    handlers that always return. *)
Definition env_unreachable (gone : list MokeiWebSocket) : env :=
  {| send_str := fun _ ws _ =>
       if bool_decide (ws ∈ gone) then Some ConnectionResetError else None;
     text_handler := fun _ _ _ _ => None;
     event_handler := fun _ _ _ _ => None |}.

(** A transport that accepts the first [n] calls made and is unreachable
    from then on, and handlers that always return. *)
Definition env_flaky (n : nat) : env :=
  {| send_str := fun h _ _ =>
       if (length h <? n)%nat then None else Some ConnectionResetError;
     text_handler := fun _ _ _ _ => None;
     event_handler := fun _ _ _ _ => None |}.

(** A client connected on [A] with two messages waiting. *)
Definition client_queued : wsclient.MokeiWebSocketClient :=
  wsclient.set_unsent_messages [str "a"; str "b"]
    (wsclient.set_ws (Some A) (wsclient.__init__ (str "ws://host/ws"))).

Definition h1 : handler := {| hname := 1 |}.
Definition h2 : handler := {| hname := 2 |}.
Definition h3 : handler := {| hname := 3 |}.

(** The outside of [E], with connect, disconnect and binary handlers that
    always return. *)
Definition world_of (E : env) : Life.world :=
  {| Life.base := E;
     Life.connect_handler := fun _ _ _ => None;
     Life.disconnect_handler := fun _ _ _ => None;
     Life.binary_handler := fun _ _ _ _ => None |}.

(** A client not yet connected, with two messages waiting, a connect
    handler, a disconnect handler and a text handler. *)
Definition client_waiting : wsclient.MokeiWebSocketClient :=
  wsclient.set_unsent_messages [str "a"; str "b"]
    (wsclient.ontext h3
       (wsclient_life.ondisconnect h2
          (wsclient_life.onconnect h1 (wsclient.__init__ (str "ws://host/ws"))))).

(** A route with a handler for the event ["known"] and a text handler. *)
Definition route_known : MokeiWebSocketRoute :=
  websocket.ontext h3 (websocket.on (str "known") h1 (websocket.__init__ (str "/ws"))).

(** A client with a handler for the event ["known"] and a text handler. *)
Definition client_known : wsclient.MokeiWebSocketClient :=
  wsclient.ontext h3 (wsclient.on (str "known") h1 (wsclient.__init__ (str "ws://host/ws"))).

(** Wire texts, each after the marker, with [quoted s] for [s] between
    double quotes: an event nobody registered for, a registered event, an
    event with the empty name, an object without the event field, and a
    JSON text cut short. *)
Definition quoted (s : string) : pystr := [34] ++ str s ++ [34].

Definition msg_unknown : pystr :=
  websocket._MEM ++ str "{" ++ quoted "event" ++ str ": " ++ quoted "nope"
    ++ str ", " ++ quoted "data" ++ str ": null}".
Definition msg_known : pystr :=
  websocket._MEM ++ str "{" ++ quoted "event" ++ str ": " ++ quoted "known"
    ++ str ", " ++ quoted "data" ++ str ": [1, 2]}".
Definition msg_empty_event : pystr :=
  websocket._MEM ++ str "{" ++ quoted "event" ++ str ": " ++ [34; 34]
    ++ str ", " ++ quoted "data" ++ str ": null}".
Definition msg_no_event : pystr :=
  websocket._MEM ++ str "{" ++ quoted "data" ++ str ": 7}".
Definition msg_bad_json : pystr :=
  websocket._MEM ++ str "{" ++ quoted "event" ++ str ": ".

(** A registered event sent without the data field. *)
Definition msg_no_data : pystr :=
  websocket._MEM ++ str "{" ++ quoted "event" ++ str ": " ++ quoted "known" ++ str "}".

End Sample.

(* ================================================================== *)
(** * Properties *)

(** ** The route's broadcast *)

Section RouteFacts.
Variable E : env.

Lemma elem_of_discard_all (l : list MokeiWebSocket) (rs : gset MokeiWebSocket) x :
  x ∈ foldl (fun rs w => discard w rs) rs l ↔ x ∈ rs ∧ x ∉ l.
Proof.
  revert rs. induction l as [|w l IH]; intros rs; simpl.
  - set_solver.
  - rewrite IH. unfold discard. case_decide; set_solver.
Qed.

Lemma elem_of_recipient_sockets self target exclude x :
  x ∈ recipient_sockets self target exclude ↔
  (if bool_decide (target = []) then x ∈ sockets self else x ∈ target)
  ∧ x ∉ harmonize_exclude exclude.
Proof.
  unfold recipient_sockets. rewrite elem_of_discard_all.
  destruct target as [|t target]; simpl; [done|].
  rewrite elem_of_union, elem_of_singleton, elem_of_list_to_set.
  set_solver.
Qed.

Lemma send_to_single_ws_unfold msg w h (st : send_state) :
  send_to_single_ws E msg w h st =
  match send_str E h w msg with
  | None => (Ok tt, st, [SendStr w msg])
  | Some ConnectionResetError =>
      (Ok tt, (set_sockets (discard w) (fst st), snd st ++ [w]), [SendStr w msg])
  | Some e => (Raise e, st, [SendStr w msg])
  end.
Proof.
  unfold send_to_single_ws, try_except, call.
  destruct (send_str E h w msg) as [[]|]; reflexivity.
Qed.

(** What the fan-out of [send_text] does, for any transport. *)
Lemma gather_sends_spec msg (l : list MokeiWebSocket) :
  ∀ h (st : send_state), ∃ r st',
    gather (List.map (send_to_single_ws E msg) l) h st
      = (r, st', List.map (fun w => SendStr w msg) l)
    ∧ (∃ S', fst st' = set_sockets (fun _ => S') (fst st))
    ∧ (∀ x, x ∈ sockets (fst st') → x ∈ sockets (fst st))
    ∧ (∀ x, x ∈ sockets (fst st) → x ∉ sockets (fst st') →
         x ∈ l ∧ ∃ h', send_str E h' x msg = Some ConnectionResetError)
    ∧ (∀ x, x ∈ snd st' →
         x ∈ snd st ∨ (x ∈ l ∧ ∃ h', send_str E h' x msg = Some ConnectionResetError))
    ∧ (∀ x, x ∈ l → (∀ h', send_str E h' x msg = Some ConnectionResetError) →
         x ∉ sockets (fst st'))
    ∧ ((∀ x h' e, x ∈ l → send_str E h' x msg = Some e → e = ConnectionResetError) →
         r = Ok tt).
Proof.
  induction l as [|w l IH]; intros h st.
  - exists (Ok tt), st. simpl. split_and!; try done; try set_solver.
    exists (sockets (fst st)). by destruct st as [[] ?].
  - simpl. rewrite send_to_single_ws_unfold.
    destruct (send_str E h w msg) as [e|] eqn:Hw.
    + destruct (decide (e = ConnectionResetError)) as [->|Hne].
      * destruct (IH (h ++ [SendStr w msg])
                    (set_sockets (discard w) (fst st), snd st ++ [w]))
          as (r & st' & -> & [S' HS] & Hsub & Hgone & Hrm & Hfail & Hok).
        exists r, st'. simpl in *.
        assert (Hd : ∀ x, x ∈ discard w (sockets (fst st)) ↔ x ∈ sockets (fst st) ∧ x ≠ w).
        { intros x. unfold discard. case_decide; set_solver. }
        split_and!.
        -- done.
        -- exists S'. rewrite HS. by destruct st as [[] ?].
        -- intros x Hx. apply Hsub, Hd in Hx. tauto.
        -- intros x Hx Hnx. destruct (decide (x = w)) as [->|Hxw].
           ++ split; [left|]; eauto.
           ++ destruct (Hgone x) as [? ?]; [by apply Hd|done|]. split; [by right|done].
        -- intros x Hx. destruct (Hrm x Hx) as [Hx'|[? ?]].
           ++ apply elem_of_app in Hx' as [?|Hx']; [by left|].
              apply list_elem_of_singleton in Hx' as ->. right. split; [left|]; eauto.
           ++ right. split; [by right|done].
        -- intros x Hx Hall. apply elem_of_cons in Hx as [->|Hx]; [|by apply Hfail].
           intros Hin. apply Hsub, Hd in Hin. tauto.
        -- intros Hall. apply Hok. intros x h' e ?. apply Hall. by right.
      * destruct (IH (h ++ [SendStr w msg]) st)
          as (r & st' & Hg & HS & Hsub & Hgone & Hrm & Hfail & Hok).
        exists (Raise e), st'.
        assert (Hrun : gather (List.map (send_to_single_ws E msg) l) (h ++ [SendStr w msg]) st
                       = (r, st', List.map (fun w => SendStr w msg) l)) by exact Hg.
        split_and!.
        -- destruct e; try done; by rewrite Hrun.
        -- done.
        -- done.
        -- intros x Hx Hnx. destruct (Hgone x Hx Hnx). split; [by right|done].
        -- intros x Hx. destruct (Hrm x Hx) as [|[? ?]]; [by left|]. right. split; [by right|done].
        -- intros x Hx Hall. apply elem_of_cons in Hx as [->|Hx]; [|by apply Hfail].
           rewrite Hall in Hw. congruence.
        -- intros Hall. exfalso. apply Hne. eapply (Hall w h e); [left|exact Hw].
    + destruct (IH (h ++ [SendStr w msg]) st)
        as (r & st' & -> & HS & Hsub & Hgone & Hrm & Hfail & Hok).
      exists r, st'. split_and!.
      * done.
      * done.
      * done.
      * intros x Hx Hnx. destruct (Hgone x Hx Hnx). split; [by right|done].
      * intros x Hx. destruct (Hrm x Hx) as [|[? ?]]; [by left|]. right. split; [by right|done].
      * intros x Hx Hall. apply elem_of_cons in Hx as [->|Hx]; [|by apply Hfail].
        rewrite Hall in Hw. congruence.
      * intros Hall. apply Hok. intros x h' e ?. apply Hall. by right.
Qed.

Lemma set_sockets_const_id self :
  set_sockets (fun _ => sockets self) self = self.
Proof. by destruct self. Qed.

Lemma set_sockets_set_sockets f g self :
  set_sockets f (set_sockets g self) = set_sockets (fun S => f (g S)) self.
Proof. by destruct self. Qed.

Lemma for_each_discard (rm : list MokeiWebSocket) :
  ∀ h (st : send_state),
    for_each rm
      (fun socket_to_remove =>
         modify (fun st : send_state =>
                   (set_sockets (discard socket_to_remove) (fst st), snd st))) h st
    = (Ok tt,
       (set_sockets (fun S => foldl (fun rs w => discard w rs) S rm) (fst st), snd st),
       []).
Proof.
  induction rm as [|w rm IH]; intros h [self rm0]; simpl.
  - unfold ret. by destruct self.
  - unfold bind, modify. rewrite IH. simpl. by rewrite set_sockets_set_sockets.
Qed.

(** What [send_text] does, for any transport. *)
Lemma send_text_spec message target exclude h self :
  ∃ r self',
    send_text E message target exclude h self
      = (r, self',
         List.map (fun w => SendStr w message)
           (elements (recipient_sockets self target exclude)))
    ∧ (∃ S', self' = set_sockets (fun _ => S') self)
    ∧ (∀ x, x ∈ sockets self' → x ∈ sockets self)
    ∧ (∀ x, x ∈ sockets self → x ∉ sockets self' →
         x ∈ recipient_sockets self target exclude
         ∧ ∃ h', send_str E h' x message = Some ConnectionResetError)
    ∧ (∀ x, x ∈ recipient_sockets self target exclude →
         (∀ h', send_str E h' x message = Some ConnectionResetError) →
         x ∉ sockets self')
    ∧ ((∀ x h' e, x ∈ recipient_sockets self target exclude →
          send_str E h' x message = Some e → e = ConnectionResetError) →
         r = Ok tt).
Proof.
  unfold send_text, send_text_body, bind at 1, get at 1. simpl.
  destruct (gather_sends_spec message
              (elements (recipient_sockets self target exclude)) (h ++ []) (self, []))
    as (r & [self1 rm1] & Hg & [S1 HS] & Hsub & Hgone & Hrm & Hfail & Hok).
  simpl in *. unfold bind at 1. rewrite Hg.
  setoid_rewrite elem_of_elements in Hgone.
  setoid_rewrite elem_of_elements in Hrm.
  setoid_rewrite elem_of_elements in Hfail.
  setoid_rewrite elem_of_elements in Hok.
  destruct r as [[]|e|].
  - unfold bind, get. rewrite for_each_discard. simpl.
    eexists _, _. split; [by rewrite !app_nil_r|].
    assert (Hfin : ∀ x, x ∈ foldl (fun rs w => discard w rs) (sockets self1) rm1
                        ↔ x ∈ sockets self1 ∧ x ∉ rm1)
      by (intros; apply elem_of_discard_all).
    split_and!.
    + eexists. rewrite HS, set_sockets_set_sockets. reflexivity.
    + intros x Hx. apply Hfin in Hx. apply Hsub. tauto.
    + intros x Hx Hnx. destruct (decide (x ∈ sockets self1)) as [Hin|Hout].
      * destruct (decide (x ∈ rm1)) as [Hr|Hr].
        -- destruct (Hrm x Hr) as [Hnil|?]; [by apply elem_of_nil in Hnil|done].
        -- exfalso. apply Hnx, Hfin. done.
      * by apply Hgone.
    + intros x Hx Hall Hin. apply Hfin in Hin. by eapply Hfail; [|exact Hall|apply Hin].
    + done.
  - eexists _, _. split; [reflexivity|].
    split_and!; eauto. 
  - eexists _, _. split; [reflexivity|].
    split_and!; eauto.
Qed.

End RouteFacts.

(** C1.  When exactly one recipient of a broadcast is unreachable (its
    [send_str] raises [ConnectionResetError]) and the sends to the others
    succeed, [send_text] returns normally, a send is made to every
    recipient, the unreachable handle is no longer in [sockets] afterwards,
    and every other handle that was in [sockets] still is. *)
Theorem send_text_one_peer_unreachable
    (E : env) (message : pystr) (target : list MokeiWebSocket)
    (exclude : exclude_arg) (h : list action) (self : MokeiWebSocketRoute)
    (failed : MokeiWebSocket) :
  failed ∈ recipient_sockets self target exclude →
  (∀ h', send_str E h' failed message = Some ConnectionResetError) →
  (∀ w h', w ∈ recipient_sockets self target exclude → w ≠ failed →
           send_str E h' w message = None) →
  ∃ self' trace,
    send_text E message target exclude h self = (Ok tt, self', trace)
    ∧ (∀ w, w ∈ recipient_sockets self target exclude → SendStr w message ∈ trace)
    ∧ (failed ∉ sockets self')
    ∧ (∀ w, w ∈ sockets self → w ≠ failed → w ∈ sockets self').
Proof.
  intros Hin Hfailed Hothers.
  destruct (send_text_spec E message target exclude h self)
    as (r & self' & Hrun & _ & _ & Hgone & Hfail & Hok).
  assert (r = Ok tt) as ->.
  { apply Hok. intros x h' e Hx Hsend.
    destruct (decide (x = failed)) as [->|Hne].
    - rewrite Hfailed in Hsend. congruence.
    - rewrite Hothers in Hsend by done. congruence. }
  exists self'. eexists. split; [exact Hrun|]. split_and!.
  - intros w Hw. apply list_elem_of_fmap. exists w. split; [done|].
    by apply elem_of_elements.
  - by apply Hfail.
  - intros w Hw Hne. destruct (decide (w ∈ sockets self')) as [|Hout]; [done|].
    destruct (Hgone w Hw Hout) as [Hrec [h' Hreset]].
    rewrite Hothers in Hreset by done. congruence.
Qed.

Lemma send_text_one_peer_unreachable_witness :
  ∃ self' trace,
    send_text (Sample.env_unreachable [Sample.B]) (str "hello") [] ExcludeNone []
              Sample.route_abc = (Ok tt, self', trace)
    ∧ (∀ w, w ∈ recipient_sockets Sample.route_abc [] ExcludeNone →
            SendStr w (str "hello") ∈ trace)
    ∧ (Sample.B ∉ sockets self')
    ∧ (∀ w, w ∈ sockets Sample.route_abc → w ≠ Sample.B → w ∈ sockets self').
Proof.
  apply (send_text_one_peer_unreachable (Sample.env_unreachable [Sample.B])
           (str "hello") [] ExcludeNone [] Sample.route_abc Sample.B).
  - apply (bool_decide_unpack _). vm_compute. exact I.
  - intros h'. reflexivity.
  - intros w h' _ Hne. simpl.
    rewrite bool_decide_eq_false_2; [reflexivity|].
    intros Hw. apply list_elem_of_singleton in Hw. contradiction.
Defined.



(** C10.  With explicit targets, [send_text] attempts a send to every listed
    target that is not excluded, whether or not it is a member of [sockets]:
    the sends go to listed targets only and [sockets] is not consulted.
    When the sends succeed, the route, and so [sockets], is left as it
    was. *)
Theorem send_text_targets_not_checked
    (E : env) (message : pystr) (t : MokeiWebSocket) (target' : list MokeiWebSocket)
    (exclude : exclude_arg) (h : list action) (self : MokeiWebSocketRoute) :
  ∃ r self' trace,
    send_text E message (t :: target') exclude h self = (r, self', trace)
    ∧ (∀ w, w ∈ t :: target' → w ∉ harmonize_exclude exclude →
            SendStr w message ∈ trace)
    ∧ (∀ a, a ∈ trace → ∃ w, a = SendStr w message ∧ w ∈ t :: target')
    ∧ ((∀ w h', w ∈ t :: target' → send_str E h' w message = None) →
       r = Ok tt ∧ self' = self).
Proof.
  destruct (send_text_spec E message (t :: target') exclude h self)
    as (r & self' & Hrun & [S' HS] & Hsub & Hgone & _ & Hok).
  exists r, self'. eexists. split; [exact Hrun|].
  assert (Hrec : ∀ w, w ∈ recipient_sockets self (t :: target') exclude ↔
                      w ∈ t :: target' ∧ w ∉ harmonize_exclude exclude).
  { intros w. by rewrite elem_of_recipient_sockets. }
  split_and!.
  - intros w Hw Hex. apply list_elem_of_fmap. exists w. split; [done|].
    apply elem_of_elements, Hrec. done.
  - intros a Ha. apply list_elem_of_fmap in Ha as (w & -> & Hw).
    exists w. split; [done|]. apply elem_of_elements, Hrec in Hw. tauto.
  - intros Hall. split.
    + apply Hok. intros x h' e Hx Hsend. apply Hrec in Hx as [Hx _].
      rewrite Hall in Hsend by done. congruence.
    + assert (sockets self' = sockets self) as Heq.
      { apply set_eq. intros x. split; [apply Hsub|].
        intros Hx. destruct (decide (x ∈ sockets self')) as [|Hout]; [done|].
        destruct (Hgone x Hx Hout) as [Hr [h' Hreset]].
        apply Hrec in Hr as [Hr _]. rewrite Hall in Hreset by done. congruence. }
      rewrite HS in Heq |- *. simpl in Heq. rewrite Heq. apply set_sockets_const_id.
Qed.

Lemma send_text_targets_not_checked_witness :
  (Sample.D ∉ sockets Sample.route_abc)
  ∧ ∃ r self' trace,
      send_text (Sample.env_unreachable []) (str "hello") [Sample.D] ExcludeNone []
                Sample.route_abc = (r, self', trace)
      ∧ SendStr Sample.D (str "hello") ∈ trace
      ∧ r = Ok tt ∧ self' = Sample.route_abc.
Proof.
  split.
  - apply (bool_decide_unpack _). vm_compute. exact I.
  - destruct (send_text_targets_not_checked (Sample.env_unreachable []) (str "hello")
                Sample.D [] ExcludeNone [] Sample.route_abc)
      as (r & self' & trace & Hrun & Hsent & _ & Hsame).
    exists r, self', trace. split; [exact Hrun|]. split.
    + apply Hsent; [left|apply not_elem_of_nil].
    + apply Hsame. intros w h' _. reflexivity.
Defined.

(** ** The client's backoff *)

Section BackoffFacts.
Import wsclient.
Local Open Scope Q_scope.

Lemma _get_backoff_step u self :
  0 <= _current_backoff self → _current_backoff self <= _max_backoff self →
  0 <= u → u < 1 →
  let self' := snd (_get_backoff u self) in
  fst (_get_backoff u self) = _current_backoff self
  ∧ _max_backoff self' = _max_backoff self
  ∧ _default_backoff self' = _default_backoff self
  ∧ _current_backoff self <= _current_backoff self'
  ∧ _current_backoff self' <= _current_backoff self + _current_backoff self
  ∧ _current_backoff self' <= _max_backoff self.
Proof.
  intros Hc Hm Hu0 Hu1. simpl.
  set (c := _current_backoff self) in *. set (m := _max_backoff self) in *.
  assert (0 <= c * u) by (apply Qmult_le_0_compat; assumption).
  assert (c * u <= c) by nra.
  destruct (Q.min_spec (c + c * u) m) as [[Hlt Heq]|[Hle Heq]];
    rewrite Heq; repeat split; try reflexivity; lra.
Qed.

Lemma backoffs_spec us :
  ∀ self, 0 <= _current_backoff self → _current_backoff self <= _max_backoff self →
    Forall (fun u => 0 <= u ∧ u < 1) us →
    ∀ bs self', backoffs us self = (bs, self') →
      _max_backoff self' = _max_backoff self
      ∧ _default_backoff self' = _default_backoff self
      ∧ 0 <= _current_backoff self'
      ∧ _current_backoff self' <= _max_backoff self
      ∧ (bs = [] ∨ head bs = Some (_current_backoff self))
      ∧ (∀ b, b ∈ bs → b <= _max_backoff self)
      ∧ (∀ i a b, bs !! i = Some a → bs !! S i = Some b →
           a <= b ∧ 0 <= b - a ∧ b - a <= a).
Proof.
  induction us as [|u us IH]; intros self Hc Hm Hus bs self' Hrun.
  - simpl in Hrun. injection Hrun as <- <-.
    repeat split; try done; try (by left).
    intros b Hb. by apply elem_of_nil in Hb.
  - apply Forall_cons in Hus as [[Hu0 Hu1] Hus].
    cbn [backoffs] in Hrun.
    destruct (_get_backoff_step u self Hc Hm Hu0 Hu1)
      as (Hfst & Hmax & Hdef & Hup & Hdouble & Hcap).
    destruct (_get_backoff u self) as [b0 self1] eqn:Hstep. simpl in *.
    destruct (backoffs us self1) as [bs1 self2] eqn:Hrest.
    injection Hrun as <- <-. subst b0.
    assert (Hc1 : 0 <= _current_backoff self1) by lra.
    assert (Hm1 : _current_backoff self1 <= _max_backoff self1)
      by (rewrite Hmax; exact Hcap).
    destruct (IH self1 Hc1 Hm1 Hus bs1 self2 Hrest)
      as (Hmax' & Hdef' & Hc' & Hm' & Hhead & Hall & Hpairs).
    rewrite Hmax in *.
    split_and!; try done; try congruence.
    + by right.
    + intros b Hb. apply elem_of_cons in Hb as [->|Hb]; [exact Hm|by apply Hall].
    + intros [|i] a b Ha Hb.
      * simpl in Ha, Hb. injection Ha as <-.
        destruct Hhead as [->|Hhead]; [done|].
        destruct bs1 as [|b1 bs1]; [done|]. simpl in Hhead, Hb.
        injection Hhead as ->. injection Hb as <-. lra.
      * by apply (Hpairs i).
Qed.

End BackoffFacts.



(** ** The client's outbound queue *)

Section QueueFacts.
Import wsclient.
Variable E : env.

Lemma set_unsent_messages_same self :
  set_unsent_messages (_unsent_messages self) self = self.
Proof. by destruct self. Qed.

Lemma set_unsent_messages_twice q q' self :
  set_unsent_messages q (set_unsent_messages q' self) = set_unsent_messages q self.
Proof. by destruct self. Qed.

Lemma drain_step_unfold h self :
  drain_step E h self =
  match _unsent_messages self with
  | [] => (Ok false, self, [])
  | message :: q' =>
      match _ws self with
      | None => (Ok false, self, [])
      | Some ws =>
          match send_str E h ws message with
          | None => (Ok true, set_unsent_messages q' self, [SendStr ws message])
          | Some e =>
              (if decide (e = ConnectionResetError) then Ok false else Raise e,
               self, [SendStr ws message])
          end
      end
  end.
Proof.
  unfold drain_step, bind at 1, get. simpl.
  destruct (_unsent_messages self) as [|message q'] eqn:Hq; [reflexivity|].
  destruct (_ws self) as [ws|]; [|reflexivity].
  unfold try_except, bind, call, modify, ret. simpl.
  rewrite !app_nil_r.
  destruct (send_str E h ws message) as [e|]; simpl.
  - destruct e; reflexivity.
  - by rewrite Hq.
Qed.

(** The loop with no live connection: nothing is sent, nothing changes. *)
Lemma drain_loop_disconnected fuel h self :
  _ws self = None →
  drain_loop E (S fuel) h self = (Ok tt, self, []).
Proof.
  intros Hws. cbn [drain_loop]. unfold bind. rewrite drain_step_unfold, Hws.
  destruct (_unsent_messages self); reflexivity.
Qed.

(** The loop on a live connection [ws]: it hands over the first [k] queued
    messages in order, and stops either at the end of the queue or at the
    first message whose send raises. *)
Lemma drain_loop_connected ws (q : list pystr) :
  ∀ fuel h self,
    _ws self = Some ws → _unsent_messages self = q → (length q < fuel)%nat →
    ∃ r k trace,
      drain_loop E fuel h self = (r, set_unsent_messages (drop k q) self, trace)
      ∧ (k ≤ length q)%nat
      ∧ (∀ i m, (i < k)%nat → q !! i = Some m →
           send_str E (h ++ List.map (SendStr ws) (take i q)) ws m = None)
      ∧ ((k = length q ∧ trace = List.map (SendStr ws) q ∧ r = Ok tt)
         ∨ (∃ m e, q !! k = Some m
              ∧ trace = List.map (SendStr ws) (take (S k) q)
              ∧ send_str E (h ++ List.map (SendStr ws) (take k q)) ws m = Some e
              ∧ r = if decide (e = ConnectionResetError) then Ok tt else Raise e)).
Proof.
  induction q as [|m q IH]; intros fuel h self Hws Hq Hfuel.
  - destruct fuel as [|fuel]; [simpl in Hfuel; lia|].
    exists (Ok tt), 0%nat, []. cbn [drain_loop]. unfold bind.
    rewrite drain_step_unfold, Hq. simpl. rewrite <- Hq, set_unsent_messages_same.
    split_and!; [done|done|intros; lia|by left].
  - destruct fuel as [|fuel]; [simpl in Hfuel; lia|].
    cbn [drain_loop]. unfold bind at 1. rewrite drain_step_unfold, Hq, Hws.
    destruct (send_str E h ws m) as [e|] eqn:Hsend.
    + exists (if decide (e = ConnectionResetError) then Ok tt else Raise e), 0%nat,
        [SendStr ws m].
      split_and!.
      * rewrite drop_0, <- Hq, set_unsent_messages_same.
        destruct (decide (e = ConnectionResetError)); reflexivity.
      * simpl. lia.
      * intros; lia.
      * right. exists m, e. simpl. rewrite app_nil_r. done.
    + destruct (IH fuel (h ++ [SendStr ws m]) (set_unsent_messages q self))
        as (r & k & trace & Hrun & Hk & Hsent & Hend).
      { by destruct self. }
      { by destruct self. }
      { simpl in Hfuel. lia. }
      exists r, (S k), (SendStr ws m :: trace). split_and!.
      * rewrite Hrun, set_unsent_messages_twice. reflexivity.
      * simpl. lia.
      * intros [|i] m' Hi Hm'; simpl in *.
        -- injection Hm' as <-. by rewrite app_nil_r.
        -- specialize (Hsent i m'). rewrite <- app_assoc in Hsent. simpl in Hsent.
           apply Hsent; [lia|done].
      * destruct Hend as [(-> & -> & ->)|(m' & e & Hm' & -> & Hfail & ->)].
        -- by left.
        -- right. exists m', e. simpl. rewrite <- app_assoc in Hfail. done.
Qed.

(** The drain of any queue the client holds, when the transport fails with
    [ConnectionResetError] only. *)
Lemma drain_loop_drained h self :
  (∀ h' ws m e, send_str E h' ws m = Some e → e = ConnectionResetError) →
  drained E h self (_unsent_messages self)
    (drain_loop E (S (length (_unsent_messages self))) h self).
Proof.
  intros Hcontract. unfold drained.
  destruct (_ws self) as [ws|] eqn:Hws.
  - destruct (drain_loop_connected ws (_unsent_messages self)
                (S (length (_unsent_messages self))) h self Hws eq_refl)
      as (r & k & trace & Hrun & Hk & Hsent & Hend); [lia|].
    exists k, trace.
    destruct Hend as [(-> & -> & ->)|(m & e & Hm & -> & Hfail & ->)].
    + split_and!; try done. by left.
    + pose proof (Hcontract _ _ _ _ Hfail) as ->.
      split_and!; try done. right. by exists m.
  - exists 0%nat, []. rewrite drain_loop_disconnected by done.
    rewrite drop_0, set_unsent_messages_same. split_and!; try done. lia.
Qed.

End QueueFacts.



(** The same run, evaluated: two messages go out, the third send fails and
    its message stays queued. *)
Example send_on_flaky_transport :
  wsclient.send (Sample.env_flaky 2) (str "c") [] Sample.client_queued
  = (Ok tt,
     wsclient.set_unsent_messages [str "c"] Sample.client_queued,
     [SendStr Sample.A (str "a"); SendStr Sample.A (str "b"); SendStr Sample.A (str "c")]).
Proof. reflexivity. Qed.

(** While disconnected, [send] only queues. *)
Example send_while_disconnected :
  wsclient.send (Sample.env_flaky 0) (str "c") []
    (wsclient.__init__ (str "ws://host/ws"))
  = (Ok tt,
     wsclient.set_unsent_messages [str "c"] (wsclient.__init__ (str "ws://host/ws")),
     []).
Proof. reflexivity. Qed.

(** ** Dispatch of inbound text *)

Section CoroFacts.
Context {S A B : Type}.
Implicit Types (f : A → M S B) (h : list action) (s : S).

Lemma bind_ret a f h s : bind (ret a) f h s = f a h s.
Proof. unfold bind, ret. rewrite app_nil_r. by destruct (f a h s) as [[? ?] ?]. Qed.

Lemma bind_lift_ok a f h s : bind (lift (Ok a)) f h s = f a h s.
Proof. unfold bind, lift. rewrite app_nil_r. by destruct (f a h s) as [[? ?] ?]. Qed.

Lemma bind_lift_raise e f h s : bind (lift (Raise e)) f h s = (Raise e, s, []).
Proof. reflexivity. Qed.

Lemma bind_lift_unmodelled f h s : bind (lift Unmodelled) f h s = (Unmodelled, s, []).
Proof. reflexivity. Qed.

Lemma bind_get (g : S → M S B) h s : bind get g h s = g s h s.
Proof. unfold bind, get. rewrite app_nil_r. by destruct (g s h s) as [[? ?] ?]. Qed.

Lemma bind_modify (u : S → S) (g : unit → M S B) h s :
  bind (modify u) g h s = g tt h (u s).
Proof. unfold bind, modify. rewrite app_nil_r. by destruct (g tt h (u s)) as [[? ?] ?]. Qed.

End CoroFacts.

Section DispatchFacts.
Variable E : env.

(** A fan-out of calls to the outside leaves the object alone, makes every
    call in order, and returns normally when every call does. *)
Lemma gather_calls {S X : Type} (a : X → action) (answer : X → list action → option exn)
    (xs : list X) :
  ∀ h (s : S), ∃ r,
    gather (List.map (fun x => call (a x) (answer x)) xs) h s = (r, s, List.map a xs)
    ∧ ((∀ x h', x ∈ xs → answer x h' = None) → r = Ok tt).
Proof.
  induction xs as [|x xs IH]; intros h s.
  - by exists (Ok tt).
  - destruct (IH (h ++ [a x]) s) as (r & Hrun & Hok).
    cbn [List.map gather]. unfold call at 1. rewrite Hrun. eexists. split; [reflexivity|].
    intros Hall. rewrite (Hall x h) by left. simpl. apply Hok.
    intros y h' Hy. apply Hall. by right.
Qed.

(** The route on a marker-prefixed text whose JSON is a [dict]. *)
Lemma route_dispatch_dict ws message h self d :
  startswith message websocket._MEM = true →
  json.loads (drop (length websocket._MEM) message) = Ok (PyDict d) →
  websocket._ontext_handler E ws message h self =
  let event := default PyNone (dict_lookup d (str "event")) in
  let data_dict := default PyNone (dict_lookup d (str "data")) in
  if negb (truthy event) then (Ok tt, self, [])
  else
    match handlers_get (_onevent_handlers self) event with
    | Ok (Some handlers) =>
        gather (List.map
                  (fun handler =>
                     call (CallEvent handler ws data_dict)
                          (fun h => event_handler E h handler ws data_dict))
                  handlers) h self
    | Ok None => (Raise TypeError, self, [])
    | Raise e => (Raise e, self, [])
    | Unmodelled => (Unmodelled, self, [])
    end.
Proof.
  intros Hm Hl. unfold websocket._ontext_handler. rewrite Hm, Hl.
  rewrite bind_lift_ok. cbn [py_get]. rewrite !bind_lift_ok.
  destruct (truthy (default PyNone (dict_lookup d (str "event")))); cbn [negb];
    [|reflexivity].
  rewrite bind_get.
  destruct (handlers_get _ _) as [[hs|]| |]; try reflexivity.
  by rewrite bind_lift_ok.
Qed.

(** The route on a marker-prefixed text never calls a text handler. *)
Lemma route_dispatch_marker_no_text ws message h self :
  startswith message websocket._MEM = true →
  ∀ a, a ∈ snd (websocket._ontext_handler E ws message h self) →
       ∃ handler data, a = CallEvent handler ws data.
Proof.
  intros Hm a. unfold websocket._ontext_handler. rewrite Hm.
  destruct (json.loads _) as [event_dict| |];
    [rewrite bind_lift_ok|intros Ha; by apply elem_of_nil in Ha ..].
  destruct (py_get event_dict (str "event")) as [event| |];
    [rewrite bind_lift_ok|intros Ha; by apply elem_of_nil in Ha ..].
  destruct (py_get event_dict (str "data")) as [data_dict| |];
    [rewrite bind_lift_ok|intros Ha; by apply elem_of_nil in Ha ..].
  destruct (truthy event); cbn [negb]; [|intros Ha; by apply elem_of_nil in Ha].
  rewrite bind_get.
  destruct (handlers_get _ _) as [[hs|]| |];
    [rewrite bind_lift_ok|intros Ha; by apply elem_of_nil in Ha ..].
  destruct (gather_calls (S := MokeiWebSocketRoute)
              (fun handler => CallEvent handler ws data_dict)
              (fun handler h => event_handler E h handler ws data_dict) hs
              h self) as (r & -> & _).
  simpl. intros Ha. apply list_elem_of_fmap in Ha as (handler & -> & _). eauto.
Qed.

(** The client on a marker-prefixed text whose JSON is a [dict]. *)
Lemma client_dispatch_dict ws msg h self d :
  startswith msg wsclient._MEM = true →
  json.loads (drop (length wsclient._MEM) msg) = Ok (PyDict d) →
  wsclient._ontext_handler E ws msg h self =
  match dict_lookup d (str "event"), dict_lookup d (str "data") with
  | Some event, Some data =>
      bind (wsclient.handlers_getitem event)
        (fun handlers =>
           bind (gather (List.map
                           (fun handler =>
                              call (CallEvent handler ws data)
                                   (fun h => event_handler E h handler ws data))
                           handlers))
             (fun _ =>
                bind get
                  (fun self =>
                     gather (List.map
                               (fun handler =>
                                  call (CallText handler ws msg)
                                       (fun h => text_handler E h handler ws msg))
                               (wsclient._ontext_handlers self))))) h self
  | _, _ => (Ok tt, self, [])
  end.
Proof.
  intros Hm Hl. unfold wsclient._ontext_handler. rewrite Hm, Hl.
  rewrite bind_lift_ok. cbn [py_contains py_getitem]. rewrite bind_lift_ok.
  destruct (dict_lookup d (str "event")) as [event|] eqn:He.
  - rewrite bool_decide_eq_true_2 by eauto. cbn [negb].
    unfold bind at 1. rewrite bind_lift_ok.
    destruct (dict_lookup d (str "data")) as [data|] eqn:Hd.
    + rewrite bool_decide_eq_true_2 by eauto. cbn [negb ret].
      rewrite app_nil_r, !bind_lift_ok.
      match goal with |- (let (_, _) := ?x in _) = _ => by destruct x as [[? ?] ?] end.
    + rewrite bool_decide_eq_false_2 by (by intros [? ?]). reflexivity.
  - rewrite bool_decide_eq_false_2 by (by intros [? ?]). cbn [negb].
    rewrite bind_ret. reflexivity.
Qed.

(** The client on an event message for the name [name]: the handlers
    registered for [name] are all called with the data, and when they
    return, every text handler is called with the raw text. *)
Lemma client_dispatch_named ws msg h self d name data :
  startswith msg wsclient._MEM = true →
  json.loads (drop (length wsclient._MEM) msg) = Ok (PyDict d) →
  dict_lookup d (str "event") = Some (PyStr name) →
  dict_lookup d (str "data") = Some data →
  let handlers := default [] (wsclient._handlers self !! name) in
  ∃ r self' rest,
    wsclient._ontext_handler E ws msg h self
      = (r, self', List.map (fun handler => CallEvent handler ws data) handlers ++ rest)
    ∧ wsclient._ontext_handlers self' = wsclient._ontext_handlers self
    ∧ ((∀ handler h', handler ∈ handlers → event_handler E h' handler ws data = None) →
       rest = List.map (fun handler => CallText handler ws msg)
                (wsclient._ontext_handlers self)
       ∧ ((∀ handler h', handler ∈ wsclient._ontext_handlers self →
             text_handler E h' handler ws msg = None) → r = Ok tt)).
Proof.
  intros Hm Hl He Hd handlers.
  rewrite (client_dispatch_dict ws msg h self d Hm Hl), He, Hd.
  cbn [wsclient.handlers_getitem].
  set (self1 := match wsclient._handlers self !! name with
                | Some _ => self
                | None => wsclient.set_handlers (<[name := []]> (wsclient._handlers self)) self
                end).
  assert (Htexts : wsclient._ontext_handlers self1 = wsclient._ontext_handlers self).
  { subst self1. destruct (wsclient._handlers self !! name); [done|by destruct self]. }
  assert (Hstep : ∀ (k : list handler → M wsclient.MokeiWebSocketClient unit),
             bind (bind get (fun self0 =>
                     match wsclient._handlers self0 !! name with
                     | Some handlers0 => ret handlers0
                     | None =>
                         bind (modify (wsclient.set_handlers
                                         (<[name := []]> (wsclient._handlers self0))))
                              (fun _ => ret [])
                     end)) k h self
             = k handlers h self1).
  { intros k. unfold bind at 1. rewrite bind_get. subst handlers self1.
    destruct (wsclient._handlers self !! name) as [hs|]; simpl.
    - rewrite app_nil_r. by destruct (k hs h self) as [[? ?] ?].
    - rewrite app_nil_r.
      by destruct (k [] h (wsclient.set_handlers (<[name:=[]]> (wsclient._handlers self)) self))
        as [[? ?] ?]. }
  rewrite Hstep. clear Hstep.
  destruct (gather_calls (S := wsclient.MokeiWebSocketClient)
              (fun handler => CallEvent handler ws data)
              (fun handler h => event_handler E h handler ws data) handlers h self1)
    as (r1 & Hrun1 & Hok1).
  unfold bind at 1. rewrite Hrun1.
  destruct (gather_calls (S := wsclient.MokeiWebSocketClient)
              (fun handler => CallText handler ws msg)
              (fun handler h => text_handler E h handler ws msg)
              (wsclient._ontext_handlers self1)
              (h ++ List.map (fun handler => CallEvent handler ws data) handlers) self1)
    as (r2 & Hrun2 & Hok2).
  destruct r1 as [[]|e|].
  - rewrite bind_get, Hrun2. exists r2, self1. eexists. split; [reflexivity|].
    split; [exact Htexts|]. intros _. rewrite Htexts. split; [done|].
    intros Hall. apply Hok2. rewrite Htexts. done.
  - exists (Raise e), self1, []. rewrite app_nil_r. split; [reflexivity|].
    split; [exact Htexts|]. intros Hall. by specialize (Hok1 Hall).
  - exists Unmodelled, self1, []. rewrite app_nil_r. split; [reflexivity|].
    split; [exact Htexts|]. intros Hall. by specialize (Hok1 Hall).
Qed.

End DispatchFacts.

(** The route on an event whose name was never registered: the [get] on the
    handler map yields [None], and iterating over it is a [TypeError]. *)
Lemma route_unregistered_event_raises (E : env) ws message h self d name :
  startswith message websocket._MEM = true →
  json.loads (drop (length websocket._MEM) message) = Ok (PyDict d) →
  dict_lookup d (str "event") = Some (PyStr name) →
  name ≠ [] →
  _onevent_handlers self !! name = None →
  websocket._ontext_handler E ws message h self = (Raise TypeError, self, []).
Proof.
  intros Hm Hl He Hname Hnone.
  rewrite (route_dispatch_dict E ws message h self d Hm Hl), He.
  cbv zeta. cbn [default from_option Datatypes.id truthy handlers_get].
  rewrite bool_decide_eq_false_2 by done. cbn [negb]. by rewrite Hnone.
Qed.

(** Registration under one name creates no entry under another. *)
Lemma on_other_event event h name self :
  event ≠ name →
  _onevent_handlers (websocket.on event h self) !! name = _onevent_handlers self !! name.
Proof. intros Hne. simpl. by rewrite lookup_insert_ne. Qed.

(** C4 (the code departs from it).  On a route that has a handler for
    ["known"] only, the event message for ["nope"] does not end in a silent
    return: [_ontext_handler] raises [TypeError] before any handler is
    called.  The client's [_ontext_handler], which indexes its
    [defaultdict] instead of calling [get], returns normally on the same
    text. *)
Theorem route_unknown_event_raises :
  startswith Sample.msg_unknown websocket._MEM = true
  ∧ json.loads (drop (length websocket._MEM) Sample.msg_unknown)
    = Ok (PyDict [(str "event", PyStr (str "nope")); (str "data", PyNone)])
  ∧ _onevent_handlers Sample.route_known !! str "nope" = None
  ∧ websocket._ontext_handler (Sample.env_flaky 0) Sample.A Sample.msg_unknown []
      Sample.route_known
    = (Raise TypeError, Sample.route_known, [])
  ∧ fst (fst (wsclient._ontext_handler (Sample.env_flaky 0) Sample.A Sample.msg_unknown []
                Sample.client_known))
    = Ok tt.
Proof.
  assert (Hl : json.loads (drop (length websocket._MEM) Sample.msg_unknown)
               = Ok (PyDict [(str "event", PyStr (str "nope")); (str "data", PyNone)]))
    by (vm_compute; reflexivity).
  assert (Hnone : _onevent_handlers Sample.route_known !! str "nope" = None).
  { unfold Sample.route_known. cbn [websocket.ontext _onevent_handlers].
    rewrite on_other_event by discriminate. reflexivity. }
  split_and!.
  - reflexivity.
  - exact Hl.
  - exact Hnone.
  - apply (route_unregistered_event_raises (Sample.env_flaky 0) Sample.A
             Sample.msg_unknown [] Sample.route_known _ (str "nope") eq_refl Hl);
      [reflexivity|discriminate|exact Hnone].
  - vm_compute. reflexivity.
Qed.



(** C8, as stated, fails on the client: an [event] that is present but falsy
    does not make the client drop the message.  With the empty event name
    the client still calls its text handler. *)
Example client_empty_event_dispatch :
  json.loads (drop (length wsclient._MEM) Sample.msg_empty_event)
  = Ok (PyDict [(str "event", PyStr []); (str "data", PyNone)])
  ∧ truthy (PyStr []) = false
  ∧ snd (wsclient._ontext_handler (Sample.env_flaky 0) Sample.A Sample.msg_empty_event []
           Sample.client_known)
    = [CallText Sample.h3 Sample.A Sample.msg_empty_event].
Proof. split_and!; vm_compute; reflexivity. Qed.

Lemma client_falsy_event_not_dropped :
  ¬ (∀ (E : env) (ws : connection) (h : list action) (message : pystr)
       (d : list (pystr * pyobj)) (event : pyobj)
       (self : wsclient.MokeiWebSocketClient),
       startswith message wsclient._MEM = true →
       json.loads (drop (length wsclient._MEM) message) = Ok (PyDict d) →
       dict_lookup d (str "event") = Some event →
       truthy event = false →
       ∃ self', wsclient._ontext_handler E ws message h self = (Ok tt, self', [])).
Proof.
  intros Hclaim.
  destruct (Hclaim (Sample.env_flaky 0) Sample.A [] Sample.msg_empty_event
              [(str "event", PyStr []); (str "data", PyNone)] (PyStr [])
              Sample.client_known) as [self' Hrun];
    [reflexivity|vm_compute; reflexivity|reflexivity|reflexivity|].
  pose proof (proj2 (proj2 client_empty_event_dispatch)) as Htrace.
  rewrite Hrun in Htrace. discriminate Htrace.
Qed.

(** C8, amended.  For a marker-prefixed text whose JSON object parses: the
    route drops it (normal return, no handler called) when [event] is
    missing or falsy; the client drops it when [event] is missing. *)
Theorem event_missing_or_falsy_dropped
    (E : env) (ws : connection) (h : list action) (message : pystr)
    (d : list (pystr * pyobj)) :
  startswith message websocket._MEM = true →
  json.loads (drop (length websocket._MEM) message) = Ok (PyDict d) →
  ((dict_lookup d (str "event") = None
    ∨ ∃ event, dict_lookup d (str "event") = Some event ∧ truthy event = false) →
   ∀ self, websocket._ontext_handler E ws message h self = (Ok tt, self, []))
  ∧ (dict_lookup d (str "event") = None →
     ∀ self, wsclient._ontext_handler E ws message h self = (Ok tt, self, [])).
Proof.
  intros Hm Hl. split.
  - intros Hev self. rewrite (route_dispatch_dict E ws message h self d Hm Hl).
    destruct Hev as [->|(event & -> & Hfalsy)]; cbv zeta;
      cbn [default from_option Datatypes.id].
    + reflexivity.
    + by rewrite Hfalsy.
  - intros He self. by rewrite (client_dispatch_dict E ws message h self d Hm Hl), He.
Qed.

Lemma event_missing_or_falsy_dropped_witness :
  websocket._ontext_handler (Sample.env_flaky 0) Sample.A Sample.msg_empty_event []
    Sample.route_known = (Ok tt, Sample.route_known, [])
  ∧ wsclient._ontext_handler (Sample.env_flaky 0) Sample.A Sample.msg_no_event []
      Sample.client_known = (Ok tt, Sample.client_known, []).
Proof.
  split.
  - apply (proj1 (event_missing_or_falsy_dropped (Sample.env_flaky 0) Sample.A []
                    Sample.msg_empty_event
                    [(str "event", PyStr []); (str "data", PyNone)]
                    eq_refl ltac:(vm_compute; reflexivity))).
    right. exists (PyStr []). split; reflexivity.
  - apply (proj2 (event_missing_or_falsy_dropped (Sample.env_flaky 0) Sample.A []
                    Sample.msg_no_event [(str "data", PyInt 7)]
                    eq_refl ltac:(vm_compute; reflexivity))).
    reflexivity.
Defined.

(** C9.  On the client, a text that decodes to a named event has every
    handler registered for that name called with the data and, once these
    have returned, every text handler called with the raw text.  On the
    route a marker-prefixed text never reaches a text handler: the calls it
    makes are event-handler calls, and for a registered name they are the
    calls of that name's handlers. *)
Theorem client_dual_dispatch
    (E : env) (ws : connection) (h : list action) (message : pystr)
    (d : list (pystr * pyobj)) (name : pystr) (data : pyobj) :
  startswith message websocket._MEM = true →
  json.loads (drop (length websocket._MEM) message) = Ok (PyDict d) →
  dict_lookup d (str "event") = Some (PyStr name) →
  dict_lookup d (str "data") = Some data →
  (∀ self : wsclient.MokeiWebSocketClient,
     let handlers := default [] (wsclient._handlers self !! name) in
     ∃ r self' rest,
       wsclient._ontext_handler E ws message h self
         = (r, self', List.map (fun handler => CallEvent handler ws data) handlers ++ rest)
       ∧ ((∀ handler h', handler ∈ handlers → event_handler E h' handler ws data = None) →
          rest = List.map (fun handler => CallText handler ws message)
                   (wsclient._ontext_handlers self)
          ∧ ((∀ handler h', handler ∈ wsclient._ontext_handlers self →
                text_handler E h' handler ws message = None) → r = Ok tt)))
  ∧ (∀ (self : MokeiWebSocketRoute) a,
       a ∈ snd (websocket._ontext_handler E ws message h self) →
       ∃ handler data', a = CallEvent handler ws data')
  ∧ (∀ (self : MokeiWebSocketRoute) handlers,
       name ≠ [] → _onevent_handlers self !! name = Some handlers →
       ∃ r, websocket._ontext_handler E ws message h self
            = (r, self, List.map (fun handler => CallEvent handler ws data) handlers)).
Proof.
  intros Hm Hl He Hd. split_and!.
  - intros self handlers.
    destruct (client_dispatch_named E ws message h self d name data Hm Hl He Hd)
      as (r & self' & rest & Hrun & _ & Hrest).
    exists r, self', rest. split; [exact Hrun|exact Hrest].
  - intros self. by apply route_dispatch_marker_no_text.
  - intros self handlers Hname Hreg.
    rewrite (route_dispatch_dict E ws message h self d Hm Hl), He, Hd.
    cbv zeta. cbn [default from_option Datatypes.id truthy handlers_get].
    rewrite bool_decide_eq_false_2 by done. cbn [negb]. rewrite Hreg.
    destruct (gather_calls (S := MokeiWebSocketRoute)
                (fun handler => CallEvent handler ws data)
                (fun handler h => event_handler E h handler ws data) handlers h self)
      as (r & Hrun & _).
    exists r. exact Hrun.
Qed.

Lemma client_dual_dispatch_witness :
  (∃ self',
     wsclient._ontext_handler (Sample.env_flaky 0) Sample.A Sample.msg_known []
       Sample.client_known
     = (Ok tt, self',
        [CallEvent Sample.h1 Sample.A (PyList [PyInt 1; PyInt 2]);
         CallText Sample.h3 Sample.A Sample.msg_known]))
  ∧ (∃ r,
       websocket._ontext_handler (Sample.env_flaky 0) Sample.A Sample.msg_known []
         Sample.route_known
       = (r, Sample.route_known,
          [CallEvent Sample.h1 Sample.A (PyList [PyInt 1; PyInt 2])])).
Proof.
  destruct (client_dual_dispatch (Sample.env_flaky 0) Sample.A [] Sample.msg_known
              [(str "event", PyStr (str "known"));
               (str "data", PyList [PyInt 1; PyInt 2])]
              (str "known") (PyList [PyInt 1; PyInt 2])
              eq_refl ltac:(vm_compute; reflexivity) eq_refl eq_refl)
    as (Hclient & _ & Hroute).
  split.
  - destruct (Hclient Sample.client_known) as (r & self' & rest & Hrun & Hrest).
    destruct Hrest as [-> Hr]; [intros; reflexivity|].
    rewrite Hr in Hrun by (intros; reflexivity).
    exists self'. exact Hrun.
  - apply (Hroute Sample.route_known [Sample.h1]); [discriminate|].
    vm_compute. reflexivity.
Defined.

(** ** The JSON codec

    [json.loads] gives back what [json.dumps] was given, for well-formed
    objects without an adjacent surrogate pair in a string. *)

Section JsonFacts.
Import json json_facts.

Ltac divmod_lia := zify; Z.div_mod_to_equations; lia.

Lemma hexval_hexdigit k : k < 16 → hexval (hexdigit k) = Some k.
Proof.
  intros Hk.
  assert (Hcases : k = 0 ∨ k = 1 ∨ k = 2 ∨ k = 3 ∨ k = 4 ∨ k = 5 ∨ k = 6 ∨ k = 7
                   ∨ k = 8 ∨ k = 9 ∨ k = 10 ∨ k = 11 ∨ k = 12 ∨ k = 13 ∨ k = 14 ∨ k = 15)
    by lia.
  repeat (destruct Hcases as [->|Hcases]; [reflexivity|]). by subst.
Qed.

Lemma _decode_uXXXX_u_escape n :
  n < 65536 →
  ∃ a b c d, u_escape n = [92; 117; a; b; c; d] ∧ _decode_uXXXX a b c d = Ok n
    ∧ a ≠ 92.
Proof.
  intros Hn. eexists _, _, _, _. split; [reflexivity|].
  unfold _decode_uXXXX.
  rewrite !hexval_hexdigit by (apply N.mod_lt; lia).
  split.
  - f_equal.
    change 4096 with (16 * 16 * 16). change 256 with (16 * 16).
    rewrite <- !N.Div0.div_div.
    set (n1 := n / 16) in *. set (n2 := n1 / 16). set (n3 := n2 / 16).
    assert (n = 16 * n1 + n mod 16) by (apply N.div_mod; lia).
    assert (n1 = 16 * n2 + n1 mod 16) by (apply N.div_mod; lia).
    assert (n2 = 16 * n3 + n2 mod 16) by (apply N.div_mod; lia).
    assert (n3 mod 16 = n3) by (apply N.mod_small; subst n3 n2 n1; divmod_lia).
    lia.
  - unfold hexdigit. destruct (_ <? 10) eqn:H; [apply N.ltb_lt in H|apply N.ltb_ge in H].
    + lia.
    + assert (n / 4096 mod 16 < 16) by (apply N.mod_lt; lia). lia.
Qed.

Lemma lor_disjoint a b : b < 1024 → N.lor (a * 1024) b = a * 1024 + b.
Proof.
  intros Hb. rewrite <- N.lxor_lor, <- N.add_nocarry_lxor; try reflexivity.
  all: apply N.bits_inj_0; intros i; rewrite N.land_spec.
  all: destruct (N.lt_ge_cases i 10) as [Hi|Hi].
  all: try (change 1024 with (2 ^ 10); rewrite N.mul_pow2_bits_low by done; reflexivity).
  all: replace (N.testbit b i) with false; [by rewrite andb_false_r|].
  all: symmetry; destruct (N.eq_dec b 0) as [->|Hb0]; [apply N.bits_0|].
  all: apply N.bits_above_log2; assert (N.log2 b < 10); [|lia].
  all: apply N.log2_lt_pow2; [lia|done].
Qed.

Lemma escape_char_cases c :
  c < 1114112 →
  (∃ x, escape_char c = [92; x] ∧ x ≠ 117 ∧ BACKSLASH x = Some c)
  ∨ (escape_char c = [c] ∧ c ≠ 34 ∧ c ≠ 92 ∧ 32 ≤ c)
  ∨ (c < 65536 ∧ escape_char c = u_escape c)
  ∨ (∃ hi lo, escape_char c = u_escape hi ++ u_escape lo
       ∧ is_high_surrogate hi = true ∧ is_low_surrogate lo = true
       ∧ 65536 + N.lor (N.shiftl (hi - 55296) 10) (lo - 56320) = c).
Proof.
  intros Hc. unfold escape_char.
  destruct (N.eqb_spec c 34) as [->|?]; [left; by exists 34|].
  destruct (N.eqb_spec c 92) as [->|?]; [left; by exists 92|].
  destruct (N.eqb_spec c 10) as [->|?]; [left; by exists 110|].
  destruct (N.eqb_spec c 13) as [->|?]; [left; by exists 114|].
  destruct (N.eqb_spec c 9) as [->|?]; [left; by exists 116|].
  destruct (N.eqb_spec c 12) as [->|?]; [left; by exists 102|].
  destruct (N.eqb_spec c 8) as [->|?]; [left; by exists 98|].
  destruct (N.leb_spec 32 c); destruct (N.leb_spec c 126); cbn [andb];
    try (right; left; done).
  all: destruct (N.ltb_spec c 65536); [right; right; left; done|].
  all: right; right; right.
  all: cbv zeta; set (k := c - 65536).
  all: assert (Hn : k < 1048576) by lia.
  all: assert (Hck : c = 65536 + k) by lia.
  all: clearbody k.
  all: exists (N.lor 55296 (N.land (N.shiftr k 10) 1023)),
              (N.lor 56320 (N.land k 1023)).
  all: split; [reflexivity|].
  all: change 1023 with (N.ones 10); rewrite !N.land_ones, N.shiftr_div_pow2.
  all: change (2 ^ 10) with 1024.
  all: change 55296 with (54 * 1024); change 56320 with (55 * 1024).
  all: assert (Hq : k / 1024 < 1024) by divmod_lia.
  all: rewrite (N.mod_small (k / 1024)) by done.
  all: assert (Hr : k mod 1024 < 1024) by (apply N.mod_lt; lia).
  all: assert (Hqr : k = 1024 * (k / 1024) + k mod 1024) by (apply N.div_mod; lia).
  all: set (q := k / 1024) in *; set (r := k mod 1024) in *; clearbody q r.
  all: rewrite !lor_disjoint by done.
  all: unfold is_high_surrogate, is_low_surrogate.
  all: split; [apply andb_true_intro; split; apply N.leb_le; lia|].
  all: split; [apply andb_true_intro; split; apply N.leb_le; lia|].
  all: replace (54 * 1024 + q - 54 * 1024) with q by lia.
  all: replace (55 * 1024 + r - 55 * 1024) with r by lia.
  all: rewrite N.shiftl_mul_pow2; change (2 ^ 10) with 1024.
  all: rewrite lor_disjoint by done.
  all: lia.
Qed.

Lemma scanstring_plain c s :
  c ≠ 34 → c ≠ 92 → 32 ≤ c → scanstring (c :: s) = push c (scanstring s).
Proof.
  intros H1 H2 H3. cbn [scanstring].
  rewrite (proj2 (N.eqb_neq c 34)), (proj2 (N.eqb_neq c 92)) by done.
  by rewrite (proj2 (N.ltb_ge c 32)).
Qed.

Lemma scanstring_backslash x ch s :
  x ≠ 117 → BACKSLASH x = Some ch → scanstring (92 :: x :: s) = push ch (scanstring s).
Proof.
  intros H1 H2. cbn [scanstring]. change (92 =? 34) with false. change (92 =? 92) with true.
  cbv iota. rewrite (proj2 (N.eqb_neq x 117)) by done. by rewrite H2.
Qed.

Lemma scanstring_u_single a b c d uni s3 :
  _decode_uXXXX a b c d = Ok uni →
  is_high_surrogate uni = false ∨ no_low_ahead s3 →
  scanstring (92 :: 117 :: a :: b :: c :: d :: s3) = push uni (scanstring s3).
Proof.
  intros Hd Hs. cbn [scanstring]. change (92 =? 34) with false. change (92 =? 92) with true.
  change (117 =? 117) with true. cbv iota. rewrite Hd. cbn [outcome_bind].
  destruct (is_high_surrogate uni); [|reflexivity].
  destruct Hs as [?|Hs]; [done|].
  destruct s3 as [|bs [|u s4]]; try reflexivity.
  destruct Hs as [->|(a2 & b2 & c2 & d2 & s5 & uni2 & -> & -> & Hlow)]; [reflexivity|].
  destruct ((bs =? 92) && (u =? 117)); [|reflexivity].
  cbn [outcome_bind]. by rewrite Hlow.
Qed.

Lemma scanstring_u_pair a b c d hi a2 b2 c2 d2 lo s5 :
  _decode_uXXXX a b c d = Ok hi → is_high_surrogate hi = true →
  _decode_uXXXX a2 b2 c2 d2 = Ok lo → is_low_surrogate lo = true →
  scanstring (92 :: 117 :: a :: b :: c :: d :: 92 :: 117 :: a2 :: b2 :: c2 :: d2 :: s5)
  = push (65536 + N.lor (N.shiftl (hi - 55296) 10) (lo - 56320)) (scanstring s5).
Proof.
  intros Hd Hh Hd2 Hl. cbn [scanstring]. change (92 =? 34) with false.
  change (92 =? 92) with true. change (117 =? 117) with true. cbv iota.
  rewrite Hd. cbn [outcome_bind]. rewrite Hh. cbn [andb]. rewrite Hd2.
  cbn [outcome_bind]. by rewrite Hl.
Qed.

Lemma high_not_low c : is_high_surrogate c = true → is_low_surrogate c = false.
Proof.
  unfold is_high_surrogate, is_low_surrogate. intros [H1 H2]%andb_true_iff.
  apply N.leb_le in H1, H2. apply andb_false_iff. left. apply N.leb_gt. lia.
Qed.

Lemma no_low_ahead_escaped s rest :
  str_well_formed s = true →
  match s with c :: _ => is_low_surrogate c = false | [] => True end →
  no_low_ahead (flat_map escape_char s ++ 34 :: rest).
Proof.
  intros Hwf Hhead. destruct s as [|c s]; simpl.
  - destruct rest; [done|]. by left.
  - apply andb_true_iff in Hwf as [Hc _]. apply N.ltb_lt in Hc.
    destruct (escape_char_cases c Hc)
      as [(x & -> & Hx & _)|[(-> & _ & H92 & _)|[(Hlt & ->)|(hi & lo & -> & Hhi & _ & _)]]].
    + simpl. left. by rewrite (proj2 (N.eqb_neq x 117)).
    + simpl. destruct (flat_map escape_char s ++ 34 :: rest) eqn:Heq.
      * by destruct (flat_map escape_char s).
      * left. by rewrite (proj2 (N.eqb_neq c 92)).
    + destruct (_decode_uXXXX_u_escape c Hlt) as (a & b & c' & d & -> & Hd & _).
      simpl. right. eauto 10.
    + assert (Hlt : hi < 65536).
      { unfold is_high_surrogate in Hhi. apply andb_true_iff in Hhi as [_ H2].
        apply N.leb_le in H2. lia. }
      destruct (_decode_uXXXX_u_escape hi Hlt) as (a & b & c' & d & -> & Hd & _).
      simpl. right. exists a, b, c', d. eexists _, hi. split; [reflexivity|].
      split; [done|]. by apply high_not_low.
Qed.

Lemma scanstring_escaped s :
  str_well_formed s = true → surrogate_pair_free s = true →
  ∀ rest, scanstring (flat_map escape_char s ++ 34 :: rest) = Ok (s, rest).
Proof.
  induction s as [|c s IH]; intros Hwf Hfree rest.
  - reflexivity.
  - pose proof Hwf as Hwf'.
    cbn [str_well_formed forallb] in Hwf. apply andb_true_iff in Hwf as [Hc Hwfs].
    cbn [surrogate_pair_free] in Hfree. apply andb_true_iff in Hfree as [Hpair Hfrees].
    apply N.ltb_lt in Hc. specialize (IH Hwfs Hfrees).
    cbn [flat_map]. rewrite <- app_assoc.
    destruct (escape_char_cases c Hc)
      as [(x & -> & Hx & Hb)|[(-> & H34 & H92 & H32)|[(Hlt & ->)|(hi & lo & -> & Hhi & Hlo & Heq)]]].
    + cbn [app]. rewrite (scanstring_backslash x c) by done. by rewrite IH.
    + cbn [app]. rewrite scanstring_plain by done. by rewrite IH.
    + destruct (_decode_uXXXX_u_escape c Hlt) as (a & b & c' & d & -> & Hd & _).
      cbn [app]. rewrite (scanstring_u_single a b c' d c); [by rewrite IH|done|].
      destruct (is_high_surrogate c) eqn:Hh; [right|by left].
      apply no_low_ahead_escaped; [done|].
      destruct s as [|c2 s]; [done|]. cbn [andb negb] in Hpair.
      by destruct (is_low_surrogate c2).
    + assert (Hhi' : hi < 65536).
      { unfold is_high_surrogate in Hhi. apply andb_true_iff in Hhi as [_ H2].
        apply N.leb_le in H2. lia. }
      assert (Hlo' : lo < 65536).
      { unfold is_low_surrogate in Hlo. apply andb_true_iff in Hlo as [_ H2].
        apply N.leb_le in H2. lia. }
      destruct (_decode_uXXXX_u_escape hi Hhi') as (a & b & c' & d & -> & Hd & _).
      destruct (_decode_uXXXX_u_escape lo Hlo') as (a2 & b2 & c2 & d2 & -> & Hd2 & _).
      cbn [app]. rewrite (scanstring_u_pair a b c' d hi a2 b2 c2 d2 lo) by done.
      rewrite IH. cbn [push outcome_bind]. by rewrite Heq.
Qed.

Lemma value_end_no_digit rest :
  value_end rest → match rest with c :: _ => is_digit c = false | [] => True end.
Proof. destruct rest as [|c rest]; [done|]. by intros [->|[->| ->]]. Qed.

Lemma value_end_no_float rest : value_end rest → float_follows rest = false.
Proof.
  destruct rest as [|c [|c2 rest]]; try done.
  by intros [->|[->| ->]].
Qed.

Lemma scan_digits_uint_chars d rest :
  match rest with c :: _ => is_digit c = false | [] => True end →
  scan_digits (uint_chars d ++ rest) = (d, rest).
Proof.
  intros Hrest. induction d; cbn [uint_chars app scan_digits];
    try (change (is_digit _) with true; cbv iota; rewrite IHd; reflexivity).
  destruct rest as [|c rest]; [reflexivity|]. cbn [scan_digits]. by rewrite Hrest.
Qed.

Lemma pos_to_uint_head p :
  ∃ c d, uint_chars (Pos.to_uint p) = c :: uint_chars d
         ∧ (49 <=? c) && (c <=? 57) = true ∧ c ≠ 45 ∧ digit_cons c d = Pos.to_uint p.
Proof.
  assert (Hnorm : unorm (Pos.to_uint p) = Pos.to_uint p).
  { rewrite <- (DecimalPos.Unsigned.to_of (Pos.to_uint p)).
    by rewrite DecimalPos.Unsigned.of_to. }
  destruct (Pos.to_uint p) as [|d|d|d|d|d|d|d|d|d|d] eqn:Hp;
    try (eexists _, d; split; [reflexivity|]; done).
  - by apply DecimalPos.Unsigned.to_uint_nonnil in Hp.
  - exfalso. rewrite DecimalFacts.unorm_D0 in Hnorm.
    assert (Hd : d = Nil ∨ d ≠ Nil) by (destruct d; [left|right ..]; done).
    destruct Hd as [->|Hd].
    + by apply DecimalPos.Unsigned.to_uint_nonzero in Hp.
    + pose proof (DecimalFacts.nb_digits_unorm d Hd) as Hlen.
      rewrite Hnorm in Hlen. simpl in Hlen. lia.
Qed.

Lemma is_digit_range c : is_digit c = true → 48 ≤ c ∧ c ≤ 57.
Proof.
  unfold is_digit. intros [H1 H2]%andb_true_iff. apply N.leb_le in H1, H2. done.
Qed.

Lemma startswith_cons_ne c s p prefix : c ≠ p → startswith (c :: s) (p :: prefix) = false.
Proof. intros Hne. cbn [startswith]. by rewrite (proj2 (N.eqb_neq c p)). Qed.

(** On a text that starts like a number, [scan_once] is [match_number]. *)
Lemma scan_once_number fuel c s1 :
  is_digit c = true
  ∨ (c = 45 ∧ match s1 with c2 :: _ => is_digit c2 = true | [] => False end) →
  scan_once (S fuel) (c :: s1) =
  match match_number (c :: s1) with
  | Some r => r
  | None => Raise JSONDecodeError
  end.
Proof.
  intros Hc. cbn [scan_once].
  assert (Hne : c ≠ 34 ∧ c ≠ 123 ∧ c ≠ 91 ∧ c ≠ 110 ∧ c ≠ 116 ∧ c ≠ 102 ∧ c ≠ 78 ∧ c ≠ 73).
  { destruct Hc as [Hc%is_digit_range|[-> _]]; [lia|done]. }
  destruct Hne as (? & ? & ? & ? & ? & ? & ? & ?).
  rewrite (proj2 (N.eqb_neq c 34)), (proj2 (N.eqb_neq c 123)), (proj2 (N.eqb_neq c 91))
    by done.
  change (str "null") with (110 :: str "ull"). change (str "true") with (116 :: str "rue").
  change (str "false") with (102 :: str "alse"). change (str "NaN") with (78 :: str "aN").
  change (str "Infinity") with (73 :: str "nfinity").
  rewrite !startswith_cons_ne by done. cbn [orb].
  replace (startswith (c :: s1) (str "-Infinity")) with false; [reflexivity|].
  symmetry. destruct Hc as [Hc%is_digit_range|[-> Hc2]].
  - change (str "-Infinity") with (45 :: str "Infinity"). apply startswith_cons_ne. lia.
  - destruct s1 as [|c2 s2]; [done|]. apply is_digit_range in Hc2.
    change (str "-Infinity") with (45 :: 73 :: str "nfinity"). cbn [startswith].
    rewrite (proj2 (N.eqb_neq c2 73)) by lia. reflexivity.
Qed.

Lemma match_number_digits p rest :
  value_end rest →
  ∃ c s1, uint_chars (Pos.to_uint p) ++ rest = c :: s1
    ∧ is_digit c = true
    ∧ match_number (uint_chars (Pos.to_uint p) ++ rest)
      = Some (Ok (PyInt (Zpos p), rest))
    ∧ match_number (45 :: uint_chars (Pos.to_uint p) ++ rest)
      = Some (Ok (PyInt (Zneg p), rest)).
Proof.
  intros Hend.
  destruct (pos_to_uint_head p) as (c & d & Hchars & Hrange & H45 & Hcons).
  pose proof Hrange as Hrange'. apply andb_true_iff in Hrange' as [H1 H2].
  apply N.leb_le in H1, H2.
  assert (Hval : N.of_uint (digit_cons c d) = Npos p).
  { rewrite Hcons. apply DecimalPos.Unsigned.of_to. }
  exists c, (uint_chars d ++ rest). rewrite Hchars. split; [reflexivity|]. split.
  { unfold is_digit. apply andb_true_iff. split; apply N.leb_le; lia. }
  split.
  - unfold match_number. cbn [app]. rewrite (proj2 (N.eqb_neq c 45)) by done.
    rewrite (proj2 (N.eqb_neq c 48)) by lia. rewrite Hrange.
    rewrite scan_digits_uint_chars by (by apply value_end_no_digit).
    rewrite value_end_no_float by done. by rewrite Hval.
  - unfold match_number. cbn [app]. change (45 =? 45) with true. cbv iota.
    rewrite (proj2 (N.eqb_neq c 48)) by lia. rewrite Hrange.
    rewrite scan_digits_uint_chars by (by apply value_end_no_digit).
    rewrite value_end_no_float by done. by rewrite Hval.
Qed.

Lemma scan_once_int fuel z rest :
  value_end rest → scan_once (S fuel) (int_repr z ++ rest) = Ok (PyInt z, rest).
Proof.
  intros Hend. destruct z as [|p|p]; unfold int_repr.
  - change (uint_chars (N.to_uint (Z.to_N 0))) with [48]. cbn [app].
    rewrite scan_once_number by (by left).
    unfold match_number. change (48 =? 45) with false. change (48 =? 48) with true.
    cbv iota. by rewrite value_end_no_float.
  - change (N.to_uint (Z.to_N (Z.pos p))) with (Pos.to_uint p).
    destruct (match_number_digits p rest Hend) as (c & s1 & Heq & Hd & Hpos & _).
    rewrite Heq in *. rewrite scan_once_number by (by left). by rewrite Hpos.
  - change (N.to_uint (N.pos p)) with (Pos.to_uint p).
    destruct (match_number_digits p rest Hend) as (c & s1 & Heq & Hd & _ & Hneg).
    cbn [app]. rewrite scan_once_number.
    + by rewrite Hneg.
    + right. split; [done|]. by rewrite Heq.
Qed.

Lemma skip_ws_head c s : is_ws c = false → skip_ws (c :: s) = c :: s.
Proof. intros H. cbn [skip_ws]. by rewrite H. Qed.

Lemma value_start_app s rest : value_start s → value_start (s ++ rest).
Proof. intros (c & s' & -> & H). by exists c, (s' ++ rest). Qed.

Lemma encode_basestring_ascii_start s : value_start (encode_basestring_ascii s).
Proof. by eexists _, _. Qed.

Lemma dumps_start o : value_start (dumps o).
Proof.
  destruct o as [|[]|z|s|l|d]; try (by eexists _, _).
  destruct z as [|p|p]; try (by eexists _, _).
  unfold dumps, int_repr. change (N.to_uint (Z.to_N (Z.pos p))) with (Pos.to_uint p).
  destruct (pos_to_uint_head p) as (c & d & -> & Hrange & _).
  apply andb_true_iff in Hrange as [H1 H2]. apply N.leb_le in H1, H2.
  exists c, (uint_chars d). split; [done|].
  split; [|lia]. unfold is_ws.
  rewrite (proj2 (N.eqb_neq c 32)), (proj2 (N.eqb_neq c 9)),
    (proj2 (N.eqb_neq c 10)), (proj2 (N.eqb_neq c 13)) by lia. done.
Qed.

Lemma skip_ws_value s : value_start s → skip_ws s = s.
Proof. intros (c & s' & -> & H & _). by apply skip_ws_head. Qed.

Lemma skip_ws_space_value s : value_start s → skip_ws (32 :: s) = s.
Proof. intros H. cbn [skip_ws]. change (is_ws 32) with true. by apply skip_ws_value. Qed.

Lemma dict_setitem_fresh d k v :
  k ∉ List.map fst d → dict_setitem d k v = d ++ [(k, v)].
Proof.
  induction d as [|[k' v'] d IH]; intros Hk; [done|]. cbn [dict_setitem].
  rewrite bool_decide_eq_false_2 by set_solver. cbn [app]. f_equal. apply IH. set_solver.
Qed.

Lemma dict_of_pairs_nodup pairs :
  NoDup (List.map fst pairs) → dict_of_pairs pairs = pairs.
Proof.
  unfold dict_of_pairs.
  assert (Hgen : ∀ acc, NoDup (List.map fst (acc ++ pairs)) →
            fold_left (λ d '(k, v), dict_setitem d k v) pairs acc = acc ++ pairs).
  { induction pairs as [|[k v] pairs IH]; intros acc Hnd.
    - by rewrite app_nil_r.
    - cbn [fold_left]. rewrite dict_setitem_fresh.
      + rewrite IH; rewrite <- app_assoc; done.
      + rewrite map_app in Hnd. apply NoDup_app in Hnd as (_ & Hdisj & _).
        intros Hin. apply (Hdisj k Hin). simpl. left. }
  intros Hnd. by apply (Hgen []).
Qed.

Lemma comma_space_app (t : pystr) : str ", " ++ t = 44 :: 32 :: t.
Proof. reflexivity. Qed.

Lemma array_items_join l :
  l ≠ [] → Forall roundtrips l →
  ∀ fuel rest, (S (length (join (str ", ") (List.map dumps l))) ≤ fuel)%nat →
    array_items fuel (join (str ", ") (List.map dumps l) ++ 93 :: rest) = Ok (l, rest).
Proof.
  induction l as [|v l IH]; [done|]. intros _ Hall fuel rest Hfuel.
  apply Forall_cons in Hall as [Hv Hall].
  destruct fuel as [|fuel]; [lia|]. cbn [array_items].
  destruct l as [|v2 l].
  - cbn [List.map join] in *. rewrite Hv; [|lia|by (right; left)].
    cbn [outcome_bind]. rewrite skip_ws_head by done. reflexivity.
  - change (join (str ", ") (List.map dumps (v :: v2 :: l)))
      with (dumps v ++ str ", " ++ join (str ", ") (List.map dumps (v2 :: l))) in *.
    rewrite !length_app in Hfuel. change (length (str ", ")) with 2%nat in Hfuel.
    rewrite <- !app_assoc, comma_space_app.
    rewrite Hv; [|lia|by left]. cbn [outcome_bind].
    rewrite skip_ws_head by done. change (44 =? 93) with false. change (44 =? 44) with true.
    cbv iota.
    assert (Hstart : value_start (join (str ", ") (List.map dumps (v2 :: l)) ++ 93 :: rest)).
    { apply value_start_app. cbn [List.map join].
      destruct (List.map dumps l); [apply dumps_start|apply value_start_app, dumps_start]. }
    rewrite skip_ws_space_value by done.
    rewrite IH; [reflexivity|done|done|lia].
Qed.

Lemma object_items_join d :
  d ≠ [] →
  Forall (fun kv => str_well_formed (fst kv) = true ∧ surrogate_pair_free (fst kv) = true
                    ∧ roundtrips (snd kv)) d →
  ∀ fuel rest, (S (length (join (str ", ") (List.map dumps_item d))) ≤ fuel)%nat →
    object_items fuel (join (str ", ") (List.map dumps_item d) ++ 125 :: rest) = Ok (d, rest).
Proof.
  induction d as [|[k v] d IH]; [done|]. intros _ Hall fuel rest Hfuel.
  apply Forall_cons in Hall as [(Hk1 & Hk2 & Hv) Hall]. simpl in Hk1, Hk2, Hv.
  destruct fuel as [|fuel]; [lia|]. cbn [object_items].
  assert (Hitem : ∀ tail, dumps_item (k, v) ++ tail
            = 34 :: flat_map escape_char k ++ 34 :: 58 :: 32 :: dumps v ++ tail).
  { intros tail. unfold dumps_item, encode_basestring_ascii.
    rewrite <- !app_assoc. reflexivity. }
  assert (Hlen : (length (dumps v) + 4 ≤ length (dumps_item (k, v)))%nat).
  { unfold dumps_item, encode_basestring_ascii. rewrite !length_app. simpl. lia. }
  destruct d as [|kv2 d].
  - cbn [List.map join] in *. rewrite Hitem. change (34 =? 34) with true. cbv iota.
    rewrite scanstring_escaped by done. cbn [outcome_bind].
    rewrite skip_ws_head by done. change (58 =? 58) with true. cbv iota.
    rewrite skip_ws_space_value by (apply value_start_app, dumps_start).
    rewrite Hv; [|lia|by (right; right)]. cbn [outcome_bind].
    rewrite skip_ws_head by done. reflexivity.
  - change (join (str ", ") (List.map dumps_item ((k, v) :: kv2 :: d)))
      with (dumps_item (k, v) ++ str ", " ++ join (str ", ") (List.map dumps_item (kv2 :: d)))
      in *.
    rewrite !length_app in Hfuel. change (length (str ", ")) with 2%nat in Hfuel.
    rewrite <- !app_assoc, comma_space_app. rewrite Hitem.
    change (34 =? 34) with true. cbv iota.
    rewrite scanstring_escaped by done. cbn [outcome_bind].
    rewrite skip_ws_head by done. change (58 =? 58) with true. cbv iota.
    rewrite skip_ws_space_value by (apply value_start_app, dumps_start).
    rewrite Hv; [|lia|by left]. cbn [outcome_bind].
    rewrite skip_ws_head by done. change (44 =? 125) with false. change (44 =? 44) with true.
    cbv iota.
    assert (Hstart : value_start (join (str ", ") (List.map dumps_item (kv2 :: d)) ++ 125 :: rest)).
    { apply value_start_app. cbn [List.map join]. destruct kv2 as [k2 v2].
      destruct (List.map dumps_item d);
        [|apply value_start_app]; apply value_start_app, encode_basestring_ascii_start. }
    rewrite skip_ws_space_value by done.
    rewrite IH; [reflexivity|done|done|lia].
Qed.

Lemma dumps_dict d :
  dumps (PyDict d) = 123 :: join (str ", ") (List.map dumps_item d) ++ [125].
Proof.
  reflexivity.
Qed.

Lemma scan_once_dumps o :
  well_formed o = true → no_surrogate_pairs o = true → roundtrips o.
Proof.
  induction o as [| b | z | s | l IH | d IH] using pyobj_nested_ind;
    intros Hwf Hfree fuel rest Hfuel Hend.
  - destruct fuel as [|fuel]; [simpl in Hfuel; lia|]. reflexivity.
  - destruct fuel as [|fuel]; [destruct b; simpl in Hfuel; lia|]. by destruct b.
  - destruct fuel as [|fuel].
    + destruct (dumps_start (PyInt z)) as (c & s' & Heq & _). rewrite Heq in Hfuel.
      simpl in Hfuel. lia.
    + by apply scan_once_int.
  - destruct fuel as [|fuel]; [simpl in Hfuel; lia|].
    cbn [dumps]. unfold encode_basestring_ascii. rewrite <- !app_assoc.
    cbn [app scan_once]. change (34 =? 34) with true. cbv iota.
    by rewrite scanstring_escaped.
  - destruct fuel as [|fuel]; [simpl in Hfuel; lia|].
    cbn [dumps] in *. rewrite <- !app_assoc. cbn [app scan_once].
    change (91 =? 34) with false. change (91 =? 123) with false.
    change (91 =? 91) with true. cbv iota.
    destruct l as [|v l].
    + cbn [List.map join app]. rewrite skip_ws_head by done. reflexivity.
    + assert (Hstart : value_start (join (str ", ") (List.map dumps (v :: l)) ++ 93 :: rest)).
      { apply value_start_app. cbn [List.map join].
        destruct (List.map dumps l); [apply dumps_start|apply value_start_app, dumps_start]. }
      rewrite skip_ws_value by done.
      destruct Hstart as (c & s' & Heq & _ & H93 & _). rewrite Heq.
      rewrite (proj2 (N.eqb_neq c 93)) by done. rewrite <- Heq.
      rewrite array_items_join; [reflexivity|done| |].
      * cbn [well_formed no_surrogate_pairs] in Hwf, Hfree.
        rewrite forallb_forall in Hwf, Hfree. rewrite Forall_forall in IH |- *.
        intros x Hx. apply IH; [done|apply Hwf|apply Hfree]; by apply list_elem_of_In.
      * cbn [app length] in Hfuel. rewrite length_app in Hfuel.
        cbn [length] in Hfuel. lia.
  - destruct fuel as [|fuel]; [simpl in Hfuel; lia|].
    rewrite dumps_dict in *. cbn [app]. rewrite <- app_assoc. cbn [app scan_once].
    change (123 =? 34) with false. change (123 =? 123) with true. cbv iota.
    cbn [well_formed no_surrogate_pairs] in Hwf, Hfree.
    apply andb_true_iff in Hwf as [Hnd Hwf]. apply bool_decide_eq_true in Hnd.
    destruct d as [|kv d].
    + cbn [List.map join app]. rewrite skip_ws_head by done. reflexivity.
    + assert (Hstart : value_start (join (str ", ") (List.map dumps_item (kv :: d)) ++ 125 :: rest)).
      { apply value_start_app. cbn [List.map join]. destruct kv as [k v].
        destruct (List.map dumps_item d);
          [|apply value_start_app]; apply value_start_app, encode_basestring_ascii_start. }
      rewrite skip_ws_value by done.
      destruct Hstart as (c & s' & Heq & _ & _ & H125 & _). rewrite Heq.
      rewrite (proj2 (N.eqb_neq c 125)) by done. rewrite <- Heq.
      rewrite object_items_join; [|done| |].
      * cbn [outcome_bind]. by rewrite dict_of_pairs_nodup.
      * rewrite forallb_forall in Hwf, Hfree. rewrite Forall_forall in IH |- *.
        intros [k v] Hx. specialize (IH _ Hx).
        apply list_elem_of_In in Hx. specialize (Hwf _ Hx). specialize (Hfree _ Hx).
        simpl in *. apply andb_true_iff in Hwf as [? ?]. apply andb_true_iff in Hfree as [? ?].
        auto.
      * cbn [app length] in Hfuel. rewrite length_app in Hfuel.
        cbn [length] in Hfuel. lia.
Qed.

Lemma loads_dumps o :
  well_formed o = true → no_surrogate_pairs o = true → loads (dumps o) = Ok o.
Proof.
  intros Hwf Hfree. unfold loads.
  destruct (dumps_start o) as (c & s' & Heq & Hws & _ & _ & Hbom).
  assert (startswith (dumps o) [65279] = false) as ->.
  { rewrite Heq. by apply startswith_cons_ne. }
  rewrite skip_ws_value by apply dumps_start.
  rewrite <- (app_nil_r (dumps o)) at 2.
  rewrite (scan_once_dumps o Hwf Hfree); [reflexivity|lia|done].
Qed.

End JsonFacts.

(** C3, as stated, fails for one kind of string: two code points that form
    a surrogate pair are written as two escapes and read back as one
    character. *)
Example surrogate_pair_joined :
  json.loads (json.dumps (PyStr [55357; 56832])) = Ok (PyStr [128512]).
Proof. vm_compute. reflexivity. Qed.




(** ** Dispatch and broadcast, further *)

Lemma gather_calls_any_state {S X : Type} (a : X → action)
    (answer : X → list action → option exn) (xs : list X) :
  ∀ h (s s' : S), ∃ r,
    gather (List.map (fun x => call (a x) (answer x)) xs) h s = (r, s, List.map a xs)
    ∧ gather (List.map (fun x => call (a x) (answer x)) xs) h s' = (r, s', List.map a xs).
Proof.
  induction xs as [|x xs IH]; intros h s s'.
  - by exists (Ok tt).
  - destruct (IH (h ++ [a x]) s s') as (r & Hrun & Hrun').
    cbn [List.map gather]. unfold call at 1 3. rewrite Hrun, Hrun'. eexists. split; reflexivity.
Qed.



(** X2.  A handler registered with [on(name)] is called after the handlers
    registered for [name] before it, with the data of the event; a handler
    registered under another name changes neither the calls nor the outcome
    of the dispatch of [name]. *)
Theorem route_on_then_dispatch
    (E : env) (ws : connection) (message : pystr) (h : list action)
    (self : MokeiWebSocketRoute) (d : list (pystr * pyobj)) (name : pystr)
    (data : pyobj) (fn : handler) :
  startswith message websocket._MEM = true →
  json.loads (drop (length websocket._MEM) message) = Ok (PyDict d) →
  dict_lookup d (str "event") = Some (PyStr name) →
  dict_lookup d (str "data") = Some data →
  name ≠ [] →
  (∃ r,
     websocket._ontext_handler E ws message h (websocket.on name fn self)
     = (r, websocket.on name fn self,
        List.map (fun handler => CallEvent handler ws data)
          (default [] (_onevent_handlers self !! name) ++ [fn])))
  ∧ (∀ other, other ≠ name →
       websocket._ontext_handler E ws message h (websocket.on other fn self)
       = match websocket._ontext_handler E ws message h self with
         | (r, _, t) => (r, websocket.on other fn self, t)
         end).
Proof.
  intros Hm Hl He Hd Hname. split.
  - rewrite (route_dispatch_dict E ws message h _ d Hm Hl), He, Hd.
    cbv zeta. cbn [default from_option Datatypes.id truthy handlers_get].
    rewrite bool_decide_eq_false_2 by done. cbn [negb].
    cbn [_onevent_handlers websocket.on]. rewrite lookup_insert_eq.
    destruct (gather_calls (S := MokeiWebSocketRoute)
                (fun handler => CallEvent handler ws data)
                (fun handler h => event_handler E h handler ws data)
                (default [] (_onevent_handlers self !! name) ++ [fn]) h
                (websocket.on name fn self)) as (r & Hrun & _).
    exists r. exact Hrun.
  - intros other Hother.
    rewrite !(route_dispatch_dict E ws message h _ d Hm Hl), He, Hd.
    cbv zeta. cbn [default from_option Datatypes.id truthy handlers_get].
    rewrite bool_decide_eq_false_2 by done. cbn [negb].
    rewrite on_other_event by done.
    destruct (_onevent_handlers self !! name) as [hs|]; [|reflexivity].
    destruct (gather_calls_any_state (S := MokeiWebSocketRoute)
                (fun handler => CallEvent handler ws data)
                (fun handler h => event_handler E h handler ws data) hs h self
                (websocket.on other fn self))
      as (r & Hrun & Hrun').
    by rewrite Hrun, Hrun'.
Qed.

Lemma route_on_then_dispatch_witness :
  ∃ r,
    websocket._ontext_handler (Sample.env_flaky 0) Sample.A Sample.msg_known []
      (websocket.on (str "known") Sample.h2 Sample.route_known)
    = (r, websocket.on (str "known") Sample.h2 Sample.route_known,
       List.map (fun handler => CallEvent handler Sample.A (PyList [PyInt 1; PyInt 2]))
         (default [] (_onevent_handlers Sample.route_known !! str "known") ++ [Sample.h2])).
Proof.
  apply (proj1 (route_on_then_dispatch (Sample.env_flaky 0) Sample.A Sample.msg_known []
                  Sample.route_known
                  [(str "event", PyStr (str "known")); (str "data", PyList [PyInt 1; PyInt 2])]
                  (str "known") (PyList [PyInt 1; PyInt 2]) Sample.h2
                  eq_refl ltac:(vm_compute; reflexivity) eq_refl eq_refl
                  ltac:(discriminate))).
Defined.

Section BroadcastFacts.
Variable E : env.

Lemma raised_at_nil h message x e : ¬ raised_at E h message [] x e.
Proof. intros (l1 & l2 & Hl & _). by destruct l1. Qed.

Lemma raised_at_cons h message w l x e :
  raised_at E h message (w :: l) x e ↔
  (x = w ∧ send_str E h w message = Some e)
  ∨ raised_at E (h ++ [SendStr w message]) message l x e.
Proof.
  split.
  - intros ([|w' l1] & l2 & Hl & Hsend); simplify_eq/=.
    + left. by rewrite app_nil_r in Hsend.
    + right. exists l1, l2. split; [done|]. by rewrite <- app_assoc.
  - intros [[-> Hsend]|(l1 & l2 & -> & Hsend)].
    + exists [], l. by rewrite app_nil_r.
    + exists (w :: l1), l2. split; [done|]. simpl. by rewrite <- app_assoc in Hsend.
Qed.

(** The fan-out of [send_text], exactly. *)
Lemma gather_sends_exact message (l : list MokeiWebSocket) :
  ∀ h (st : send_state), ∃ r st',
    gather (List.map (send_to_single_ws E message) l) h st
      = (r, st', List.map (fun w => SendStr w message) l)
    ∧ (∃ S', fst st' = set_sockets (fun _ => S') (fst st))
    ∧ (∀ x, x ∈ sockets (fst st') ↔
            x ∈ sockets (fst st) ∧ ¬ raised_at E h message l x ConnectionResetError)
    ∧ (∀ x, x ∈ snd st' ↔
            x ∈ snd st ∨ raised_at E h message l x ConnectionResetError)
    ∧ match r with
      | Ok _ => ∀ x e, raised_at E h message l x e → e = ConnectionResetError
      | Raise e => e ≠ ConnectionResetError ∧ ∃ x, raised_at E h message l x e
      | Unmodelled => False
      end.
Proof.
  induction l as [|w l IH]; intros h st.
  - exists (Ok tt), st. split; [done|]. split_and!.
    + exists (sockets (fst st)). by destruct st as [[] ?].
    + intros x. split; [|tauto]. intros Hx. split; [done|]. apply raised_at_nil.
    + intros x. split; [tauto|]. intros [?|Hr]; [done|]. by apply raised_at_nil in Hr.
    + intros x e Hr. by apply raised_at_nil in Hr.
  - cbn [List.map gather]. rewrite send_to_single_ws_unfold.
    assert (Hd : ∀ x S, x ∈ discard w S ↔ x ∈ S ∧ x ≠ w).
    { intros x S. unfold discard. case_decide; set_solver. }
    destruct (send_str E h w message) as [e|] eqn:Hw.
    + destruct (decide (e = ConnectionResetError)) as [->|Hne].
      * destruct (IH (h ++ [SendStr w message])
                    (set_sockets (discard w) (fst st), snd st ++ [w]))
          as (r & st' & -> & [S' HS] & Hsock & Hrm & Hok).
        exists r, st'. split; [done|]. simpl in *. split_and!.
        -- exists S'. rewrite HS. by destruct st as [[] ?].
        -- intros x. rewrite Hsock, Hd, raised_at_cons. split.
           ++ intros [[Hx Hxw] Hn]. split; [done|]. intros [[? ?]|?]; tauto.
           ++ intros [Hx Hn]. split_and!; [done| |tauto].
              intros ->. apply Hn. by left.
        -- intros x. rewrite Hrm, elem_of_app, list_elem_of_singleton, raised_at_cons.
           split.
           ++ intros [[? | ->] | ?]; tauto.
           ++ intros [?|[[-> _]|?]]; tauto.
        -- destruct r as [[]|e|]; [| |done].
           ++ intros x e [[-> Hs]|Hr]%raised_at_cons; [congruence|by eapply Hok].
           ++ destruct Hok as [? [x Hx]]. split; [done|]. exists x.
              apply raised_at_cons. by right.
      * destruct (IH (h ++ [SendStr w message]) st)
          as (r & st' & Hrun & HS & Hsock & Hrm & Hok).
        exists (Raise e), st'. split.
        { destruct e; try done; by rewrite Hrun. }
        split_and!.
        -- done.
        -- intros x. rewrite Hsock, raised_at_cons. split; [|tauto].
           intros [Hx Hn]. split; [done|]. intros [[-> Hs]|?]; [congruence|tauto].
        -- intros x. rewrite Hrm, raised_at_cons. split; [tauto|].
           intros [?|[[-> Hs]|?]]; [tauto|congruence|tauto].
        -- done.
        -- exists w. apply raised_at_cons. by left.
    + destruct (IH (h ++ [SendStr w message]) st)
        as (r & st' & -> & HS & Hsock & Hrm & Hok).
      exists r, st'. split; [done|]. split_and!.
      * done.
      * intros x. rewrite Hsock, raised_at_cons. split; [|tauto].
        intros [Hx Hn]. split; [done|]. intros [[-> Hs]|?]; [congruence|tauto].
      * intros x. rewrite Hrm, raised_at_cons. split; [tauto|].
        intros [?|[[-> Hs]|?]]; [tauto|congruence|tauto].
      * destruct r as [[]|e|]; [| |done].
        -- intros x e [[-> Hs]|Hr]%raised_at_cons; [congruence|by eapply Hok].
        -- destruct Hok as [? [x Hx]]. split; [done|]. exists x.
           apply raised_at_cons. by right.
Qed.

(** [send_text], exactly, for any transport. *)
Lemma send_text_exact message target exclude h self :
  let rs := elements (recipient_sockets self target exclude) in
  ∃ r self',
    send_text E message target exclude h self
      = (r, self', List.map (fun w => SendStr w message) rs)
    ∧ (∃ S', self' = set_sockets (fun _ => S') self)
    ∧ (∀ x, x ∈ sockets self' ↔
            x ∈ sockets self ∧ ¬ raised_at E h message rs x ConnectionResetError)
    ∧ match r with
      | Ok _ => ∀ x e, raised_at E h message rs x e → e = ConnectionResetError
      | Raise e => e ≠ ConnectionResetError ∧ ∃ x, raised_at E h message rs x e
      | Unmodelled => False
      end.
Proof.
  intros rs. unfold send_text, send_text_body. rewrite bind_get. cbn [fst].
  destruct (gather_sends_exact message rs h (self, []))
    as (r & [self1 rm1] & Hg & [S1 HS] & Hsock & Hrm & Hok).
  fold rs. unfold bind at 1. rewrite Hg. simpl in *.
  destruct r as [[]|e|]; [|by eauto 10..].
  rewrite bind_get. cbn [snd]. rewrite for_each_discard. simpl.
  eexists _, _. split; [by rewrite app_nil_r|]. split_and!; [| |done].
  - eexists. rewrite HS, set_sockets_set_sockets. reflexivity.
  - intros x. cbn [fst sockets set_sockets].
    rewrite elem_of_discard_all, Hsock, Hrm. split; [tauto|].
    intros [? ?]. split; [done|]. intros [Hnil|?]; [by apply elem_of_nil in Hnil|done].
Qed.

End BroadcastFacts.



(** X3.  [send_text] attempts each recipient once, changes nothing of
    the route but [sockets], and removes from [sockets] exactly the members
    whose send raised [ConnectionResetError]: every other member stays, and
    nothing is added. *)
Theorem send_text_evicts_exactly
    (E : env) (message : pystr) (target : list MokeiWebSocket) (exclude : exclude_arg)
    (h : list action) (self : MokeiWebSocketRoute) :
  let rs := elements (recipient_sockets self target exclude) in
  ∃ r self',
    send_text E message target exclude h self
      = (r, self', List.map (fun w => SendStr w message) rs)
    ∧ path self' = path self
    ∧ _onconnect_handlers self' = _onconnect_handlers self
    ∧ _ondisconnect_handlers self' = _ondisconnect_handlers self
    ∧ _ontext_handlers self' = _ontext_handlers self
    ∧ _onbinary_handlers self' = _onbinary_handlers self
    ∧ _onevent_handlers self' = _onevent_handlers self
    ∧ (∀ x, x ∈ sockets self' ↔
            x ∈ sockets self ∧ ¬ raised_at E h message rs x ConnectionResetError).
Proof.
  intros rs.
  destruct (send_text_exact E message target exclude h self)
    as (r & self' & Hrun & [S' ->] & Hsock & _).
  exists r. eexists. split; [exact Hrun|]. split_and!; try reflexivity. exact Hsock.
Qed.

(** X4.  [send_text] returns exactly when no send raised anything but
    [ConnectionResetError]; when it raises, the exception is one a send
    raised and it is not [ConnectionResetError].  It never ends otherwise. *)
Theorem send_text_raises_only_other_errors
    (E : env) (message : pystr) (target : list MokeiWebSocket) (exclude : exclude_arg)
    (h : list action) (self : MokeiWebSocketRoute) :
  let rs := elements (recipient_sockets self target exclude) in
  match fst (fst (send_text E message target exclude h self)) with
  | Ok _ => ∀ x e, raised_at E h message rs x e → e = ConnectionResetError
  | Raise e => e ≠ ConnectionResetError ∧ ∃ x, raised_at E h message rs x e
  | Unmodelled => False
  end.
Proof.
  intros rs.
  destruct (send_text_exact E message target exclude h self)
    as (r & self' & Hrun & _ & _ & Hr).
  fold rs in Hrun. by rewrite Hrun.
Qed.

(** X5.  A recipient whose send fails with [ConnectionResetError] is not
    contacted by a later broadcast on the route [send_text] leaves. *)
Theorem evicted_peer_not_contacted_again
    (E : env) (message : pystr) (target : list MokeiWebSocket) (exclude : exclude_arg)
    (h : list action) (self : MokeiWebSocketRoute) (failed : MokeiWebSocket) :
  failed ∈ recipient_sockets self target exclude →
  (∀ h', send_str E h' failed message = Some ConnectionResetError) →
  ∀ message2 exclude2 h2,
    SendStr failed message2
    ∉ snd (send_text E message2 [] exclude2 h2
             (snd (fst (send_text E message target exclude h self)))).
Proof.
  intros Hin Hfail message2 exclude2 h2.
  destruct (send_text_exact E message target exclude h self)
    as (r & self' & Hrun & _ & Hsock & _).
  rewrite Hrun. cbn [fst snd].
  destruct (send_text_exact E message2 [] exclude2 h2 self') as (r2 & self2 & Hrun2 & _).
  rewrite Hrun2. cbn [snd]. intros Hsent.
  apply list_elem_of_fmap in Hsent as (w & Hw & Hrec). injection Hw as <-.
  apply elem_of_elements, elem_of_recipient_sockets in Hrec as [Hmem _].
  rewrite bool_decide_eq_true_2 in Hmem by done.
  apply Hsock in Hmem as [_ Hnot]. apply Hnot.
  apply elem_of_elements, list_elem_of_split in Hin as (l1 & l2 & Hl).
  exists l1, l2. split; [exact Hl|apply Hfail].
Qed.

Lemma evicted_peer_not_contacted_again_witness :
  SendStr Sample.B (str "again")
  ∉ snd (send_text (Sample.env_unreachable [Sample.B]) (str "again") [] ExcludeNone []
           (snd (fst (send_text (Sample.env_unreachable [Sample.B]) (str "hello") []
                        ExcludeNone [] Sample.route_abc)))).
Proof.
  apply (evicted_peer_not_contacted_again (Sample.env_unreachable [Sample.B]) (str "hello")
           [] ExcludeNone [] Sample.route_abc Sample.B).
  - apply (bool_decide_unpack _). vm_compute. exact I.
  - intros h'. reflexivity.
Defined.

(** X6.  With no recipient, that is with no target on a route without sockets,
    or with every target excluded, [send_text] sends nothing, returns, and
    leaves the route as it was. *)
Theorem send_text_without_recipients
    (E : env) (message : pystr) (target : list MokeiWebSocket) (exclude : exclude_arg)
    (h : list action) (self : MokeiWebSocketRoute) :
  (target = [] ∧ sockets self = ∅)
  ∨ (target ≠ [] ∧ ∀ t, t ∈ target → t ∈ harmonize_exclude exclude) →
  send_text E message target exclude h self = (Ok tt, self, []).
Proof.
  intros Hcase.
  assert (Hempty : elements (recipient_sockets self target exclude) = []).
  { apply elements_empty_iff. intros x.
    rewrite elem_of_recipient_sockets. split; [|set_solver].
    destruct Hcase as [[-> Hs]|[Hne Hall]].
    - rewrite bool_decide_eq_true_2 by done. rewrite Hs. set_solver.
    - rewrite bool_decide_eq_false_2 by done. intros [Ht Hex]. destruct (Hex (Hall x Ht)). }
  destruct (send_text_exact E message target exclude h self)
    as (r & self' & Hrun & [S' HS] & Hsock & Hr).
  rewrite Hempty in *. rewrite Hrun. cbn [List.map].
  assert (r = Ok tt) as ->.
  { destruct r as [[]|e|]; [done| |done]. destruct Hr as [_ [x Hx]].
    by apply raised_at_nil in Hx. }
  assert (sockets self' = sockets self) as Heq.
  { apply set_eq. intros x. rewrite Hsock. split; [tauto|].
    intros Hx. split; [done|]. apply raised_at_nil. }
  rewrite HS in Heq |- *. simpl in Heq. rewrite Heq. by rewrite set_sockets_const_id.
Qed.

Lemma send_text_without_recipients_witness :
  send_text (Sample.env_flaky 0) (str "hello") [Sample.A] (ExcludeSocket Sample.A) []
    Sample.route_abc
  = (Ok tt, Sample.route_abc, []).
Proof.
  apply (send_text_without_recipients (Sample.env_flaky 0) (str "hello") [Sample.A]
           (ExcludeSocket Sample.A) [] Sample.route_abc).
  right. split; [discriminate|]. intros t Ht. exact Ht.
Defined.

(** X7.  [MokeiWebSocket.send_text] attempts exactly one send, to the handle
    itself, whether or not the handle is in [sockets].  If the send
    succeeds the route is unchanged; on [ConnectionResetError] the call
    returns and the handle is gone from [sockets]; any other exception is
    raised and the route is unchanged. *)
Theorem handle_send_text_only_self
    (E : env) (self : MokeiWebSocket) (message : pystr) (h : list action)
    (route : MokeiWebSocketRoute) :
  ∃ r route',
    handle.send_text E self message h route = (r, route', [SendStr self message])
    ∧ match send_str E h self message with
      | None => r = Ok tt ∧ route' = route
      | Some e =>
          if decide (e = ConnectionResetError)
          then r = Ok tt ∧ route' = set_sockets (fun S => S ∖ {[self]}) route
          else r = Raise e ∧ route' = route
      end.
Proof.
  unfold handle.send_text.
  assert (Hrs : elements (recipient_sockets route [self] ExcludeNone) = [self]).
  { unfold recipient_sockets. cbn [harmonize_exclude foldl list_to_set].
    rewrite union_empty_r_L. apply elements_singleton. }
  unfold send_text, send_text_body. rewrite bind_get. cbn [fst]. rewrite Hrs.
  cbn [List.map gather]. unfold bind at 1. rewrite send_to_single_ws_unfold.
  assert (Hd : ∀ S, discard self (discard self S) = S ∖ {[self]}).
  { intros S. unfold discard. repeat case_decide; set_solver. }
  destruct (send_str E h self message) as [e|] eqn:Hs.
  - destruct (decide (e = ConnectionResetError)) as [->|Hne].
    + cbn [first_failure fst snd app]. rewrite bind_get. cbn [snd app].
      rewrite for_each_discard. cbn [fst snd foldl app].
      eexists _, _. split; [reflexivity|]. split; [done|].
      rewrite set_sockets_set_sockets. destruct route. unfold set_sockets. cbn.
      by rewrite Hd.
    + destruct e; try done; cbn; eexists _, _; (split; [reflexivity|done]).
  - cbn [first_failure fst snd app]. rewrite bind_get. cbn [snd].
    rewrite for_each_discard. cbn [fst snd foldl app].
    eexists _, _. split; [reflexivity|]. split; [done|]. by destruct route.
Qed.

Section MoreDispatchFacts.
Variable E : env.

(** The route on a marker-prefixed text whose JSON is not a [dict]. *)
Lemma route_dispatch_non_dict ws message h self o :
  startswith message websocket._MEM = true →
  json.loads (drop (length websocket._MEM) message) = Ok o →
  (∀ d, o ≠ PyDict d) →
  websocket._ontext_handler E ws message h self = (Raise AttributeError, self, []).
Proof.
  intros Hm Hl Hd. unfold websocket._ontext_handler. rewrite Hm, Hl, bind_lift_ok.
  destruct o; try reflexivity. by destruct (Hd d).
Qed.

(** The client on a marker-prefixed text whose JSON is not a [dict]. *)
Lemma client_dispatch_non_dict ws msg h self o :
  startswith msg wsclient._MEM = true →
  json.loads (drop (length wsclient._MEM) msg) = Ok o →
  (∀ d, o ≠ PyDict d) →
  wsclient._ontext_handler E ws msg h self =
  (match py_contains o (str "event"), py_contains o (str "data") with
   | Ok true, Ok true => Raise TypeError
   | Ok _, Ok _ => Ok tt
   | _, _ => Raise TypeError
   end, self, []).
Proof.
  intros Hm Hl Hd. unfold wsclient._ontext_handler. rewrite Hm, Hl, bind_lift_ok.
  destruct o as [|b|z|s|l|d]; try reflexivity; [| |by destruct (Hd d)].
  - cbn [py_contains]. rewrite bind_lift_ok.
    destruct (str_contains s (str "event")); cbn [negb].
    + unfold bind at 1. rewrite bind_lift_ok. cbn [ret].
      destruct (str_contains s (str "data")); reflexivity.
    + rewrite bind_ret. by destruct (str_contains s (str "data")).
  - cbn [py_contains]. rewrite bind_lift_ok.
    repeat match goal with
           | |- context [existsb ?f l] => let b := fresh "b" in set (b := existsb f l)
           end.
    destruct b, b0; cbn [negb];
      first [by rewrite bind_ret|by (unfold bind at 1; rewrite bind_lift_ok)].
Qed.

(** The route's dispatch leaves the route as it is. *)
Lemma route_dispatch_state ws message h self :
  snd (fst (websocket._ontext_handler E ws message h self)) = self.
Proof.
  destruct (startswith message websocket._MEM) eqn:Hm.
  - destruct (json.loads (drop (length websocket._MEM) message)) as [o| |] eqn:Hl.
    + assert (Ho : (∃ d, o = PyDict d) ∨ ∀ d, o ≠ PyDict d)
        by (destruct o; eauto; right; done).
      destruct Ho as [[d ->]|Ho].
      * rewrite (route_dispatch_dict E ws message h self d Hm Hl). cbv zeta.
        destruct (negb _); [done|].
        destruct (handlers_get _ _) as [[hs|]| |]; try done.
        by destruct (gather_calls (S := MokeiWebSocketRoute)
                       (fun handler => CallEvent handler ws
                                         (default PyNone (dict_lookup d (str "data"))))
                       (fun handler h => event_handler E h handler ws
                                           (default PyNone (dict_lookup d (str "data"))))
                       hs h self) as (r & -> & _).
      * by rewrite (route_dispatch_non_dict ws message h self o Hm Hl Ho).
    + unfold websocket._ontext_handler. by rewrite Hm, Hl.
    + unfold websocket._ontext_handler. by rewrite Hm, Hl.
  - unfold websocket._ontext_handler. rewrite Hm, bind_get.
    by destruct (gather_calls (S := MokeiWebSocketRoute)
                   (fun handler => CallText handler ws message)
                   (fun handler h => text_handler E h handler ws message)
                   (_ontext_handlers self) h self) as (r & -> & _).
Qed.

(** What the client's lookup in its [defaultdict] does to the client. *)
Lemma handlers_getitem_state event h self :
  ∃ r self' ,
    wsclient.handlers_getitem event h self = (r, self', [])
    ∧ self' = wsclient.set_handlers (wsclient._handlers self') self
    ∧ (∀ name, default [] (wsclient._handlers self' !! name)
               = default [] (wsclient._handlers self !! name))
    ∧ (∀ hs, r = Ok hs →
         hs = match event with
              | PyStr s => default [] (wsclient._handlers self !! s)
              | _ => []
              end).
Proof.
  destruct event as [|b|z|s|l|d]; cbn [wsclient.handlers_getitem];
    try (eexists _, self; split; [reflexivity|]; split; [by destruct self|];
         split; [done|]; intros hs [= <-]; done);
    try (eexists _, self; split; [reflexivity|]; split; [by destruct self|];
         split; [done|]; intros hs [=]).
  rewrite bind_get. destruct (wsclient._handlers self !! s) as [hs|] eqn:Hs.
  - exists (Ok hs), self. split; [reflexivity|]. split; [by destruct self|].
    split; [done|]. by intros ? [= <-].
  - exists (Ok []), (wsclient.set_handlers (<[s:=[]]> (wsclient._handlers self)) self).
    split; [reflexivity|]. split; [by destruct self|]. split; [|by intros ? [= <-]].
    intros name. cbn. destruct (decide (s = name)) as [<-|Hne].
    + by rewrite lookup_insert_eq, Hs.
    + by rewrite lookup_insert_ne.
Qed.

(** The client's dispatch changes nothing but its handler map, and there it
    can only add an empty entry. *)
Lemma client_dispatch_state ws msg h self :
  ∃ r self' t,
    wsclient._ontext_handler E ws msg h self = (r, self', t)
    ∧ self' = wsclient.set_handlers (wsclient._handlers self') self
    ∧ ∀ name, default [] (wsclient._handlers self' !! name)
              = default [] (wsclient._handlers self !! name).
Proof.
  assert (Hsame : self = wsclient.set_handlers (wsclient._handlers self) self)
    by (by destruct self).
  destruct (startswith msg wsclient._MEM) eqn:Hm.
  - destruct (json.loads (drop (length wsclient._MEM) msg)) as [o| |] eqn:Hl.
    + assert (Ho : (∃ d, o = PyDict d) ∨ ∀ d, o ≠ PyDict d)
        by (destruct o; eauto; right; done).
      destruct Ho as [[d ->]|Ho].
      * rewrite (client_dispatch_dict E ws msg h self d Hm Hl).
        destruct (dict_lookup d (str "event")) as [event|]; [|by eauto 10].
        destruct (dict_lookup d (str "data")) as [data|]; [|by eauto 10].
        destruct (handlers_getitem_state event h self) as (r & self1 & Hrun & H1 & H2 & _).
        unfold bind at 1. rewrite Hrun. destruct r as [hs|e|]; [|by eauto 10..].
        destruct (gather_calls (S := wsclient.MokeiWebSocketClient)
                    (fun handler => CallEvent handler ws data)
                    (fun handler h => event_handler E h handler ws data) hs
                    (h ++ []) self1) as (r1 & Hrun1 & _).
        unfold bind at 1. rewrite Hrun1. destruct r1 as [[]|e|]; [|by eauto 10..].
        rewrite bind_get.
        destruct (gather_calls (S := wsclient.MokeiWebSocketClient)
                    (fun handler => CallText handler ws msg)
                    (fun handler h => text_handler E h handler ws msg)
                    (wsclient._ontext_handlers self1)
                    ((h ++ []) ++ List.map (fun handler => CallEvent handler ws data) hs)
                    self1) as (r2 & Hrun2 & _).
        rewrite Hrun2. by eauto 10.
      * rewrite (client_dispatch_non_dict ws msg h self o Hm Hl Ho). by eauto 10.
    + unfold wsclient._ontext_handler. rewrite Hm, Hl. by eexists _, self, _.
    + unfold wsclient._ontext_handler. rewrite Hm, Hl. by eexists _, self, _.
  - unfold wsclient._ontext_handler. rewrite Hm, bind_get.
    destruct (gather_calls (S := wsclient.MokeiWebSocketClient)
                (fun handler => CallText handler ws msg)
                (fun handler h => text_handler E h handler ws msg)
                (wsclient._ontext_handlers self) h self) as (r & -> & _).
    by eauto 10.
Qed.

End MoreDispatchFacts.

(** The text [send_event] builds decodes to its envelope. *)
Lemma event_message_decodes event data :
  str_well_formed event = true → well_formed data = true →
  surrogate_pair_free event = true → no_surrogate_pairs data = true →
  startswith (websocket.event_message event data) websocket._MEM = true
  ∧ json.loads (drop (length websocket._MEM) (websocket.event_message event data))
    = Ok (PyDict [(str "event", PyStr event); (str "data", data)]).
Proof.
  intros Hev Hdata Hev' Hdata'. split; [reflexivity|].
  change (drop (length websocket._MEM) (websocket.event_message event data))
    with (json.dumps (PyDict [(str "event", PyStr event); (str "data", data)])).
  apply loads_dumps.
  - cbn [well_formed forallb]. rewrite Hev, Hdata.
    rewrite bool_decide_eq_true_2; [reflexivity|].
    apply (bool_decide_unpack _). vm_compute. exact I.
  - cbn [no_surrogate_pairs forallb]. rewrite Hev', Hdata'. reflexivity.
Qed.







(** X11.  An event message without a [data] field: the route calls the
    handlers registered for the event with [None] as data; the client drops
    the message, calling nothing. *)
Theorem event_without_data
    (E : env) (ws : connection) (message : pystr) (h : list action)
    (d : list (pystr * pyobj)) (event : pyobj) :
  startswith message websocket._MEM = true →
  json.loads (drop (length websocket._MEM) message) = Ok (PyDict d) →
  dict_lookup d (str "event") = Some event →
  dict_lookup d (str "data") = None →
  (∀ (self : MokeiWebSocketRoute) name handlers,
     event = PyStr name → name ≠ [] →
     _onevent_handlers self !! name = Some handlers →
     ∃ r, websocket._ontext_handler E ws message h self
          = (r, self, List.map (fun handler => CallEvent handler ws PyNone) handlers))
  ∧ (∀ self : wsclient.MokeiWebSocketClient,
       wsclient._ontext_handler E ws message h self = (Ok tt, self, [])).
Proof.
  intros Hm Hl He Hd. split.
  - intros self name handlers -> Hname Hreg.
    rewrite (route_dispatch_dict E ws message h self d Hm Hl), He, Hd.
    cbv zeta. cbn [default from_option Datatypes.id truthy handlers_get].
    rewrite bool_decide_eq_false_2 by done. cbn [negb]. rewrite Hreg.
    destruct (gather_calls (S := MokeiWebSocketRoute)
                (fun handler => CallEvent handler ws PyNone)
                (fun handler h => event_handler E h handler ws PyNone) handlers h self)
      as (r & Hrun & _).
    by exists r.
  - intros self. by rewrite (client_dispatch_dict E ws message h self d Hm Hl), He, Hd.
Qed.

Lemma event_without_data_witness :
  wsclient._ontext_handler (Sample.env_flaky 0) Sample.A Sample.msg_no_data []
    Sample.client_known
  = (Ok tt, Sample.client_known, []).
Proof.
  apply (proj2 (event_without_data (Sample.env_flaky 0) Sample.A Sample.msg_no_data []
                  [(str "event", PyStr (str "known"))] (PyStr (str "known"))
                  eq_refl ltac:(vm_compute; reflexivity) eq_refl eq_refl)).
Defined.






(** ** More on the client's queue *)

Section MoreQueueFacts.
Import wsclient.
Variable E : env.

Lemma _send_unsent_messages_unfold h self :
  _send_unsent_messages E h self
  = drain_loop E (S (length (_unsent_messages self))) h self.
Proof. unfold _send_unsent_messages. by rewrite bind_get. Qed.

Lemma send_unfold text h self :
  send E text h self
  = _send_unsent_messages E h (set_unsent_messages (_unsent_messages self ++ [text]) self).
Proof. unfold send. by rewrite bind_modify. Qed.

Lemma drain_healthy ws h self :
  _ws self = Some ws →
  (∀ h' m, m ∈ _unsent_messages self → send_str E h' ws m = None) →
  _send_unsent_messages E h self
  = (Ok tt, set_unsent_messages [] self, List.map (SendStr ws) (_unsent_messages self)).
Proof.
  intros Hws Hok. rewrite _send_unsent_messages_unfold.
  destruct (drain_loop_connected E ws (_unsent_messages self)
              (S (length (_unsent_messages self))) h self Hws eq_refl)
    as (r & k & trace & Hrun & Hk & Hsent & Hend); [lia|].
  rewrite Hrun.
  destruct Hend as [(-> & -> & ->)|(m & e & Hm & -> & Hfail & ->)].
  - by rewrite drop_all.
  - rewrite Hok in Hfail; [done|]. by eapply list_elem_of_lookup_2.
Qed.

End MoreQueueFacts.

(** X15.  Two [send] calls made while disconnected return without sending
    and leave both texts at the tail of the queue, in call order; once a
    healthy connection is set, draining hands over the whole queue in that
    order and empties it. *)
Theorem sends_while_disconnected_are_delivered_in_order
    (E : env) (ws : connection) (h1 h2 h3 : list action)
    (self : wsclient.MokeiWebSocketClient) (a b : pystr) :
  wsclient._ws self = None →
  (∀ h' m, send_str E h' ws m = None) →
  ∃ self1 self2,
    wsclient.send E a h1 self = (Ok tt, self1, [])
    ∧ wsclient.send E b h2 self1 = (Ok tt, self2, [])
    ∧ wsclient._unsent_messages self2 = wsclient._unsent_messages self ++ [a; b]
    ∧ wsclient._send_unsent_messages E h3 (wsclient.set_ws (Some ws) self2)
      = (Ok tt,
         wsclient.set_unsent_messages [] (wsclient.set_ws (Some ws) self),
         List.map (SendStr ws) (wsclient._unsent_messages self ++ [a; b])).
Proof.
  intros Hws Hok.
  exists (wsclient.set_unsent_messages (wsclient._unsent_messages self ++ [a]) self),
         (wsclient.set_unsent_messages (wsclient._unsent_messages self ++ [a; b]) self).
  split_and!.
  - rewrite send_unfold, _send_unsent_messages_unfold.
    apply drain_loop_disconnected. by destruct self.
  - rewrite send_unfold, _send_unsent_messages_unfold.
    rewrite drain_loop_disconnected by (by destruct self).
    destruct self; simpl. by rewrite <- app_assoc.
  - by destruct self.
  - rewrite (drain_healthy E ws); [| by destruct self | intros; apply Hok].
    by destruct self.
Qed.

Lemma sends_while_disconnected_are_delivered_in_order_witness :
  ∃ self1 self2,
    wsclient.send (Sample.env_unreachable []) (str "c") [] Sample.client_waiting
    = (Ok tt, self1, [])
    ∧ wsclient.send (Sample.env_unreachable []) (str "d") [] self1 = (Ok tt, self2, [])
    ∧ wsclient._unsent_messages self2
      = wsclient._unsent_messages Sample.client_waiting ++ [str "c"; str "d"]
    ∧ wsclient._send_unsent_messages (Sample.env_unreachable []) []
        (wsclient.set_ws (Some Sample.A) self2)
      = (Ok tt,
         wsclient.set_unsent_messages [] (wsclient.set_ws (Some Sample.A) Sample.client_waiting),
         List.map (SendStr Sample.A)
           (wsclient._unsent_messages Sample.client_waiting ++ [str "c"; str "d"])).
Proof.
  apply (sends_while_disconnected_are_delivered_in_order (Sample.env_unreachable [])
           Sample.A [] [] [] Sample.client_waiting (str "c") (str "d")).
  - reflexivity.
  - intros h' m. reflexivity.
Defined.

(** ** More on the backoff *)

Section MoreBackoffFacts.
Import wsclient.
Local Open Scope Q_scope.

Lemma _get_backoff_at_max u self :
  0 <= _max_backoff self → _current_backoff self == _max_backoff self → 0 <= u →
  let self' := snd (_get_backoff u self) in
  fst (_get_backoff u self) == _max_backoff self
  ∧ _max_backoff self' = _max_backoff self
  ∧ _current_backoff self' == _max_backoff self.
Proof.
  intros Hm Hc Hu. simpl.
  set (c := _current_backoff self) in *. set (m := _max_backoff self) in *.
  assert (0 <= c * u) by (apply Qmult_le_0_compat; [lra|assumption]).
  split_and!; [exact Hc|reflexivity|].
  destruct (Q.min_spec (c + c * u) m) as [[Hlt Heq]|[Hle Heq]]; rewrite Heq; lra.
Qed.

End MoreBackoffFacts.



(** X17.  On the client, a handler registered with [on(name)] is called
    after the handlers registered for [name] before it, with the data of the
    event; when the event handlers return, the text handlers follow. *)
Theorem client_on_then_dispatch
    (E : env) (ws : connection) (h : list action)
    (self : wsclient.MokeiWebSocketClient) (name : pystr) (fn : handler)
    (msg : pystr) (d : list (pystr * pyobj)) (data : pyobj) :
  startswith msg wsclient._MEM = true →
  json.loads (drop (length wsclient._MEM) msg) = Ok (PyDict d) →
  dict_lookup d (str "event") = Some (PyStr name) →
  dict_lookup d (str "data") = Some data →
  (∀ handler h', event_handler E h' handler ws data = None) →
  let before := default [] (wsclient._handlers self !! name) in
  ∃ r self',
    wsclient._ontext_handler E ws msg h (wsclient.on name fn self)
    = (r, self',
       List.map (fun handler => CallEvent handler ws data) (before ++ [fn])
       ++ List.map (fun handler => CallText handler ws msg) (wsclient._ontext_handlers self)).
Proof.
  intros Hm Hl He Hd Hok before.
  destruct (client_dispatch_named E ws msg h (wsclient.on name fn self) d name data
              Hm Hl He Hd) as (r & self' & rest & Hrun & _ & Hrest).
  destruct Hrest as [-> _]; [intros; apply Hok|].
  exists r, self'. rewrite Hrun. unfold wsclient.on. simpl.
  by rewrite lookup_insert_eq.
Qed.

Lemma client_on_then_dispatch_witness :
  ∃ r self',
    wsclient._ontext_handler (Sample.env_flaky 0) Sample.A Sample.msg_known []
      (wsclient.on (str "known") Sample.h2 Sample.client_known)
    = (r, self',
       List.map (fun handler => CallEvent handler Sample.A (PyList [PyInt 1; PyInt 2]))
         (default [] (wsclient._handlers Sample.client_known !! str "known") ++ [Sample.h2])
       ++ List.map (fun handler => CallText handler Sample.A Sample.msg_known)
            (wsclient._ontext_handlers Sample.client_known)).
Proof.
  apply (client_on_then_dispatch (Sample.env_flaky 0) Sample.A [] Sample.client_known
           (str "known") Sample.h2 Sample.msg_known
           [(str "event", PyStr (str "known")); (str "data", PyList [PyInt 1; PyInt 2])]
           (PyList [PyInt 1; PyInt 2])).
  - reflexivity.
  - vm_compute. reflexivity.
  - reflexivity.
  - reflexivity.
  - intros handler h'. reflexivity.
Defined.

(** ** The life of a connection *)

Section LifeFacts.
Context {S A B : Type}.
Implicit Types (h : list Life.step) (s : S).

Lemma life_bind_ret (a : A) (f : A → Life.L S B) h s :
  Life.bind (Life.ret a) f h s = f a h s.
Proof.
  unfold Life.bind, Life.ret. rewrite app_nil_r. by destruct (f a h s) as [[? ?] ?].
Qed.

Lemma life_bind_get (g : S → Life.L S B) h s : Life.bind Life.get g h s = g s h s.
Proof.
  unfold Life.bind, Life.get. rewrite app_nil_r. by destruct (g s h s) as [[? ?] ?].
Qed.

Lemma life_bind_modify (u : S → S) (g : unit → Life.L S B) h s :
  Life.bind (Life.modify u) g h s = g tt h (u s).
Proof.
  unfold Life.bind, Life.modify. rewrite app_nil_r.
  by destruct (g tt h (u s)) as [[? ?] ?].
Qed.

End LifeFacts.

Lemma actions_app h t : Life.actions (h ++ t) = Life.actions h ++ Life.actions t.
Proof.
  induction h as [|[] h IH]; simpl; [done|by rewrite IH|done..].
Qed.

Lemma actions_Did t : Life.actions (List.map Life.Did t) = t.
Proof. induction t as [|a t IH]; simpl; [done|by rewrite IH]. Qed.

Lemma actions_no_Did t : (∀ a, Life.Did a ∉ t) → Life.actions t = [].
Proof.
  induction t as [|x t IH]; intros Hno; [done|].
  assert (Ht : Life.actions t = []).
  { apply IH. intros a Ha. apply (Hno a). by right. }
  destruct x; simpl; try exact Ht.
  exfalso. apply (Hno a). by left.
Qed.

(** A fan-out of handler calls leaves the object alone, calls every handler
    in order, and returns when all of them do. *)
Lemma life_gather_calls {S X : Type} (a : X → Life.step)
    (answer : X → list Life.step → option exn) (xs : list X) :
  ∀ h (s : S), ∃ r,
    Life.gather (List.map (fun x => Life.call (a x) (answer x)) xs) h s
    = (r, s, List.map a xs)
    ∧ ((∀ x h', x ∈ xs → answer x h' = None) → r = Ok tt)
    ∧ (∀ e, r = Raise e → ∃ x h', x ∈ xs ∧ answer x h' = Some e)
    ∧ r ≠ Unmodelled.
Proof.
  induction xs as [|x xs IH]; intros h s.
  - exists (Ok tt). split_and!; [done|done|done|done].
  - destruct (IH (h ++ [a x]) s) as (r & Hrun & Hok & Hraise & Hun).
    cbn [List.map Life.gather]. unfold Life.call at 1. rewrite Hrun.
    eexists. split; [reflexivity|]. split_and!.
    + intros Hall. rewrite (Hall x h) by left. simpl. apply Hok.
      intros y h' Hy. apply Hall. by right.
    + intros e. destruct (answer x h) as [e0|] eqn:Hx; simpl.
      * intros [= <-]. exists x, h. split; [by left|done].
      * intros Hr. destruct (Hraise e Hr) as (y & h' & Hy & Hans).
        exists y, h'. split; [by right|done].
    + destruct (answer x h); simpl; [done|exact Hun].
Qed.

Lemma no_send_nil : no_send [].
Proof. intros w m H. by apply elem_of_nil in H. Qed.

Lemma no_send_app t1 t2 : no_send t1 → no_send t2 → no_send (t1 ++ t2).
Proof. intros H1 H2 w m H. apply elem_of_app in H as [H|H]; [by eapply H1|by eapply H2]. Qed.

Lemma no_send_text ws msg hs :
  no_send (List.map (fun handler => CallText handler ws msg) hs).
Proof. intros w m H. apply list_elem_of_fmap in H as (x & Hx & _). done. Qed.

Lemma no_send_event ws data hs :
  no_send (List.map (fun handler => CallEvent handler ws data) hs).
Proof. intros w m H. apply list_elem_of_fmap in H as (x & Hx & _). done. Qed.

Section ClientLifeFacts.
Import wsclient wsclient_life.
Variable W : Life.world.

Lemma set_handlers_twice m m' (self : MokeiWebSocketClient) :
  set_handlers m (set_handlers m' self) = set_handlers m self.
Proof. by destruct self. Qed.

Lemma actions_connects ws hs :
  Life.actions (List.map (fun handler => Life.CallConnect handler ws) hs) = [].
Proof. by induction hs. Qed.

Lemma actions_disconnects ws hs :
  Life.actions (List.map (fun handler => Life.CallDisconnect handler ws) hs) = [].
Proof. by induction hs. Qed.

(** The client's dispatch sends nothing. *)
Lemma client_dispatch_no_send (E : env) ws msg h self :
  no_send (snd (_ontext_handler E ws msg h self)).
Proof.
  destruct (startswith msg wsclient._MEM) eqn:Hm.
  - destruct (json.loads (drop (length wsclient._MEM) msg)) as [o| |] eqn:Hl.
    + assert (Ho : (∃ d, o = PyDict d) ∨ ∀ d, o ≠ PyDict d)
        by (destruct o; eauto; right; done).
      destruct Ho as [[d ->]|Ho].
      * rewrite (client_dispatch_dict E ws msg h self d Hm Hl).
        destruct (dict_lookup d (str "event")) as [event|]; [|apply no_send_nil].
        destruct (dict_lookup d (str "data")) as [data|]; [|apply no_send_nil].
        destruct (handlers_getitem_state event h self) as (r & self1 & Hrun & _).
        unfold bind at 1. rewrite Hrun.
        destruct r as [hs|e|]; [|apply no_send_nil..].
        destruct (gather_calls (S := wsclient.MokeiWebSocketClient)
                    (fun handler => CallEvent handler ws data)
                    (fun handler h => event_handler E h handler ws data) hs
                    (h ++ []) self1) as (r1 & Hrun1 & _).
        unfold bind at 1. rewrite Hrun1.
        destruct r1 as [[]|e|]; [|apply no_send_event..].
        rewrite bind_get.
        destruct (gather_calls (S := wsclient.MokeiWebSocketClient)
                    (fun handler => CallText handler ws msg)
                    (fun handler h => text_handler E h handler ws msg)
                    (wsclient._ontext_handlers self1)
                    ((h ++ []) ++ List.map (fun handler => CallEvent handler ws data) hs)
                    self1) as (r2 & Hrun2 & _).
        rewrite Hrun2. cbn [snd app].
        apply no_send_app; [apply no_send_event|apply no_send_text].
      * rewrite (client_dispatch_non_dict E ws msg h self o Hm Hl Ho). apply no_send_nil.
    + unfold wsclient._ontext_handler. rewrite Hm, Hl. apply no_send_nil.
    + unfold wsclient._ontext_handler. rewrite Hm, Hl. apply no_send_nil.
  - unfold wsclient._ontext_handler. rewrite Hm, bind_get.
    destruct (gather_calls (S := wsclient.MokeiWebSocketClient)
                (fun handler => CallText handler ws msg)
                (fun handler h => text_handler E h handler ws msg)
                (wsclient._ontext_handlers self) h self) as (r & -> & _).
    apply no_send_text.
Qed.

(** Reading the messages of a connection: handler calls only, and the
    client changes as a dispatch may change it. *)
Lemma read_messages_spec ws msgs :
  ∀ h self, ∃ r self' t,
    read_messages W ws msgs h self = (r, self', List.map Life.Did t)
    ∧ self' = set_handlers (_handlers self') self
    ∧ (∀ name, default [] (_handlers self' !! name) = default [] (_handlers self !! name))
    ∧ no_send t.
Proof.
  induction msgs as [|msg msgs IH]; intros h self.
  - exists (Ok tt), self, []. split_and!; [done|by destruct self|done|apply no_send_nil].
  - destruct msg as [data| |]; cbn [read_messages].
    + destruct (client_dispatch_state (Life.base W) ws data (Life.actions h) self)
        as (r1 & s1 & t1 & Hrun1 & Hs1 & Hh1).
      pose proof (client_dispatch_no_send (Life.base W) ws data (Life.actions h) self) as Hn1.
      rewrite Hrun1 in Hn1. cbn [snd] in Hn1.
      unfold Life.bind at 1, Life.lift_coro. rewrite Hrun1.
      destruct r1 as [[]|e|]; [|by exists (Raise e), s1, t1|by exists Unmodelled, s1, t1].
      destruct (IH (h ++ List.map Life.Did t1) s1) as (r2 & s2 & t2 & Hrun2 & Hs2 & Hh2 & Hn2).
      rewrite Hrun2. exists r2, s2, (t1 ++ t2). split_and!.
      * by rewrite map_app.
      * rewrite Hs1 in Hs2. by rewrite set_handlers_twice in Hs2.
      * intros name. by rewrite Hh2, Hh1.
      * by apply no_send_app.
    + exists (Ok tt), self, []. split_and!; [done|by destruct self|done|apply no_send_nil].
    + apply IH.
Qed.

(** Nothing is read after an error message. *)
Lemma read_messages_error ws pre post :
  ∀ h self,
    read_messages W ws (pre ++ ERROR :: post) h self = read_messages W ws pre h self.
Proof.
  induction pre as [|msg pre IH]; intros h self; [reflexivity|].
  destruct msg as [data| |]; cbn [app read_messages].
  - unfold Life.bind.
    destruct (Life.lift_coro (_ontext_handler (Life.base W) ws data) h self)
      as [[[[]|e|] s1] t1]; [|reflexivity..].
    by rewrite IH.
  - reflexivity.
  - apply IH.
Qed.

(** A message that is neither text nor an error is passed over. *)
Lemma read_messages_other ws pre post :
  ∀ h self,
    read_messages W ws (pre ++ OTHER :: post) h self
    = read_messages W ws (pre ++ post) h self.
Proof.
  induction pre as [|msg pre IH]; intros h self; [reflexivity|].
  destruct msg as [data| |]; cbn [app read_messages].
  - unfold Life.bind.
    destruct (Life.lift_coro (_ontext_handler (Life.base W) ws data) h self)
      as [[[[]|e|] s1] t1]; [|reflexivity..].
    by rewrite IH.
  - reflexivity.
  - apply IH.
Qed.

(** What follows an attempt that left no connection. *)
Lemma after_attempt_disconnected u h self :
  _ws self = None →
  after_attempt W u h self
  = (Ok tt, snd (_get_backoff u (set_ws None self)), [Life.Sleep (_current_backoff self)]).
Proof.
  intros Hws. unfold after_attempt.
  rewrite life_bind_get, Hws, life_bind_ret, life_bind_modify, life_bind_get,
    life_bind_modify.
  reflexivity.
Qed.

(** What follows a connection. *)
Lemma after_attempt_connected u ws h self :
  _ws self = Some ws →
  ∃ r,
    ((∀ handler h', handler ∈ _ondisconnect_handlers self →
        Life.disconnect_handler W h' handler ws = None) → r = Ok tt)
    ∧ after_attempt W u h self
      = match r with
        | Ok _ =>
            (Ok tt, snd (_get_backoff u (set_ws None self)),
             List.map (fun handler => Life.CallDisconnect handler ws)
               (_ondisconnect_handlers self)
             ++ [Life.Sleep (_current_backoff self)])
        | _ =>
            (r, self,
             List.map (fun handler => Life.CallDisconnect handler ws)
               (_ondisconnect_handlers self))
        end.
Proof.
  intros Hws. unfold after_attempt. rewrite life_bind_get, Hws.
  unfold _ondisconnect_handler. unfold Life.bind at 1. rewrite life_bind_get.
  destruct (life_gather_calls (S := MokeiWebSocketClient)
              (fun handler => Life.CallDisconnect handler ws)
              (fun handler h => Life.disconnect_handler W h handler ws)
              (_ondisconnect_handlers self) h self) as (r & Hrun & Hok & _).
  rewrite Hrun. exists r. split; [exact Hok|].
  destruct r as [[]|e|]; [|reflexivity..].
  rewrite life_bind_modify, life_bind_get, life_bind_modify.
  reflexivity.
Qed.

(** The body of a connection, whatever happens in it: the client it leaves
    is the freshly connected one but for the queue and the handler map, and
    nothing in its trace is a disconnect handler or a sleep. *)
Lemma connected_state ws msgs h self :
  ∃ r self' t,
    connected W ws msgs h self = (r, self', t)
    ∧ (∃ q hm, self' = set_handlers hm
                        (set_unsent_messages q (set_ws (Some ws) (_reset_backoff self))))
    ∧ (∀ handler w, Life.CallDisconnect handler w ∉ t)
    ∧ (∀ seconds, Life.Sleep seconds ∉ t).
Proof.
  set (s0 := set_ws (Some ws) (_reset_backoff self)).
  assert (Hs0 : s0 = set_handlers (_handlers self) (set_unsent_messages (_unsent_messages self) s0))
    by (by destruct self).
  assert (Hc1 : ∀ hs handler w, Life.CallDisconnect handler w
                   ∉ List.map (fun handler => Life.CallConnect handler ws) hs).
  { intros hs ? ? Hin. apply list_elem_of_fmap in Hin as (x & Hx & _). done. }
  assert (Hc2 : ∀ hs seconds, Life.Sleep seconds
                   ∉ List.map (fun handler => Life.CallConnect handler ws) hs).
  { intros hs ? Hin. apply list_elem_of_fmap in Hin as (x & Hx & _). done. }
  assert (Hd1 : ∀ t handler w, Life.CallDisconnect handler w ∉ List.map Life.Did t).
  { intros t ? ? Hin. apply list_elem_of_fmap in Hin as (x & Hx & _). done. }
  assert (Hd2 : ∀ t seconds, Life.Sleep seconds ∉ List.map Life.Did t).
  { intros t ? Hin. apply list_elem_of_fmap in Hin as (x & Hx & _). done. }
  unfold connected. rewrite !life_bind_modify. fold s0.
  unfold Life.bind at 1. unfold _onconnect_handler. rewrite life_bind_get.
  destruct (life_gather_calls (S := MokeiWebSocketClient)
              (fun handler => Life.CallConnect handler ws)
              (fun handler h => Life.connect_handler W h handler ws)
              (_onconnect_handlers s0) h s0) as (rc & Hrc & _).
  rewrite Hrc.
  destruct rc as [[]|e|];
    [|eexists _, s0, _; split; [reflexivity|];
      split; [by exists (_unsent_messages self), (_handlers self)|];
      split; [apply Hc1|apply Hc2]..].
  unfold Life.bind at 1, Life.lift_coro.
  rewrite _send_unsent_messages_unfold.
  destruct (drain_loop_connected (Life.base W) ws (_unsent_messages s0)
              (S (length (_unsent_messages s0)))
              (Life.actions (h ++ List.map (fun handler => Life.CallConnect handler ws)
                                    (_onconnect_handlers s0)))
              s0 eq_refl eq_refl) as (rd & k & td & Hrd & _); [lia|].
  rewrite Hrd.
  set (sd := set_unsent_messages (drop k (_unsent_messages s0)) s0).
  assert (Hsd : sd = set_handlers (_handlers self) sd) by (by destruct self).
  destruct rd as [[]|e|].
  - destruct (read_messages_spec ws msgs
                ((h ++ List.map (fun handler => Life.CallConnect handler ws)
                        (_onconnect_handlers s0)) ++ List.map Life.Did td) sd)
      as (r & s1 & tr & Hr & Hs1 & _).
    rewrite Hr. eexists _, _, _. split; [reflexivity|].
    split; [by exists (drop k (_unsent_messages s0)), (_handlers s1)|].
    split; intros; rewrite !elem_of_app; intros [H|[H|H]];
      first [exact (Hc1 _ _ _ H)|exact (Hc2 _ _ H)|exact (Hd1 _ _ _ H)|exact (Hd2 _ _ H)].
  - eexists _, _, _. split; [reflexivity|].
    split; [by exists (drop k (_unsent_messages s0)), (_handlers self)|].
    split; intros; rewrite !elem_of_app; intros [H|H];
      first [exact (Hc1 _ _ _ H)|exact (Hc2 _ _ H)|exact (Hd1 _ _ _ H)|exact (Hd2 _ _ H)].
  - eexists _, _, _. split; [reflexivity|].
    split; [by exists (drop k (_unsent_messages s0)), (_handlers self)|].
    split; intros; rewrite !elem_of_app; intros [H|H];
      first [exact (Hc1 _ _ _ H)|exact (Hc2 _ _ H)|exact (Hd1 _ _ _ H)|exact (Hd2 _ _ H)].
Qed.

End ClientLifeFacts.

Section ConnectFacts.
Import wsclient wsclient_life.
Variable W : Life.world.

(** The body of a connection when the connect handlers return and the
    transport fails with [ConnectionResetError] only. *)
Lemma connected_order ws msgs h self :
  (∀ handler h', handler ∈ _onconnect_handlers self →
     Life.connect_handler W h' handler ws = None) →
  (∀ h' w m e, send_str (Life.base W) h' w m = Some e → e = ConnectionResetError) →
  let s0 := set_ws (Some ws) (_reset_backoff self) in
  let drain := _send_unsent_messages (Life.base W) (Life.actions h) s0 in
  ∃ r self' t_read,
    connected W ws msgs h self
    = (r, self',
       List.map (fun handler => Life.CallConnect handler ws) (_onconnect_handlers self)
       ++ List.map Life.Did (snd drain) ++ List.map Life.Did t_read)
    ∧ drained (Life.base W) (Life.actions h) s0 (_unsent_messages self) drain
    ∧ self' = set_handlers (_handlers self') (snd (fst drain))
    ∧ no_send t_read
    ∧ read_messages W ws msgs
        (h ++ List.map (fun handler => Life.CallConnect handler ws) (_onconnect_handlers self)
           ++ List.map Life.Did (snd drain)) (snd (fst drain))
      = (r, self', List.map Life.Did t_read).
Proof.
  intros Hc Hcontract s0 drain.
  pose proof (drain_loop_drained (Life.base W) (Life.actions h) s0 Hcontract) as Hdrained.
  rewrite <- _send_unsent_messages_unfold in Hdrained. fold drain in Hdrained.
  change (_unsent_messages s0) with (_unsent_messages self) in Hdrained.
  destruct Hdrained as (k & td & Hd & Hrest).
  unfold connected. rewrite !life_bind_modify. fold s0.
  unfold Life.bind at 1. unfold _onconnect_handler. rewrite life_bind_get.
  destruct (life_gather_calls (S := MokeiWebSocketClient)
              (fun handler => Life.CallConnect handler ws)
              (fun handler h => Life.connect_handler W h handler ws)
              (_onconnect_handlers s0) h s0) as (rc & Hrc & Hok & _).
  rewrite Hrc, Hok by (intros; by apply Hc).
  change (_onconnect_handlers s0) with (_onconnect_handlers self).
  unfold Life.bind at 1, Life.lift_coro.
  rewrite actions_app, actions_connects, app_nil_r. fold drain. rewrite Hd.
  destruct (read_messages_spec W ws msgs
              ((h ++ List.map (fun handler => Life.CallConnect handler ws)
                      (_onconnect_handlers self)) ++ List.map Life.Did td)
              (set_unsent_messages (drop k (_unsent_messages self)) s0))
    as (r & s1 & tr & Hr & Hs1 & _ & Hn).
  rewrite Hr. exists r, s1, tr. cbn [fst snd]. split_and!; try done.
  - by exists k, td.
  - by rewrite app_assoc.
Qed.

Lemma connected_error ws pre post h self :
  connected W ws (pre ++ ERROR :: post) h self = connected W ws pre h self.
Proof.
  unfold connected. rewrite !life_bind_modify. unfold Life.bind.
  destruct (_onconnect_handler W ws h _) as [[[[]|e|] s1] t1]; [|reflexivity..].
  destruct (Life.lift_coro _ (h ++ t1) s1) as [[[[]|e|] s2] t2]; [|reflexivity..].
  by rewrite read_messages_error.
Qed.

Lemma connected_other ws pre post h self :
  connected W ws (pre ++ OTHER :: post) h self = connected W ws (pre ++ post) h self.
Proof.
  unfold connected. rewrite !life_bind_modify. unfold Life.bind.
  destruct (_onconnect_handler W ws h _) as [[[[]|e|] s1] t1]; [|reflexivity..].
  destruct (Life.lift_coro _ (h ++ t1) s1) as [[[[]|e|] s2] t2]; [|reflexivity..].
  by rewrite read_messages_other.
Qed.

Lemma connect_turn_failed u h self :
  _ws self = None →
  connect_turn W None u h self
  = (Ok tt, snd (_get_backoff u self), [Life.Sleep (_current_backoff self)]).
Proof.
  intros Hws. unfold connect_turn. rewrite life_bind_ret.
  rewrite after_attempt_disconnected by done.
  destruct self; simpl in *; by subst.
Qed.

End ConnectFacts.



(** X19.  A turn of [connect] that gets a connection either runs to its end,
    and then it has called the disconnect handlers with the connection,
    cleared [_ws], and slept last, for the default backoff; or it is cut
    short by an exception, which leaves the loop before any sleep with
    [_ws] still set and the backoff at its default. *)
Theorem connected_turn_outcomes
    (W : Life.world) (ws : connection) (msgs : list wsclient_life.WSMessage) (u : Q)
    (h : list Life.step) (self : wsclient.MokeiWebSocketClient) :
  ∃ r self' t,
    wsclient_life.connect_turn W (Some (ws, msgs)) u h self = (r, self', t)
    ∧ match r with
      | Ok _ =>
          (∃ t0, t = t0 ++ List.map (fun handler => Life.CallDisconnect handler ws)
                             (wsclient._ondisconnect_handlers self)
                        ++ [Life.Sleep (wsclient._default_backoff self)]
                 ∧ ∀ seconds, Life.Sleep seconds ∉ t0)
          ∧ wsclient._ws self' = None
          ∧ wsclient._current_backoff self'
            = Qmin (wsclient._default_backoff self + wsclient._default_backoff self * u)
                   (wsclient._max_backoff self)
      | _ =>
          wsclient._ws self' = Some ws
          ∧ wsclient._current_backoff self' = wsclient._default_backoff self
          ∧ ∀ seconds, Life.Sleep seconds ∉ t
      end.
Proof.
  destruct (connected_state W ws msgs h self)
    as (r & s1 & t1 & Hrun & (q & hm & Hs1) & _ & Hsleep).
  assert (Hws : wsclient._ws s1 = Some ws) by (by rewrite Hs1).
  assert (Hcur : wsclient._current_backoff s1 = wsclient._default_backoff self)
    by (by rewrite Hs1).
  assert (Hno : ∀ hs seconds, Life.Sleep seconds
                  ∉ List.map (fun handler => Life.CallDisconnect handler ws) hs).
  { intros hs a Hin. apply list_elem_of_fmap in Hin as (x & Hx & _). done. }
  unfold wsclient_life.connect_turn, Life.bind at 1. rewrite Hrun.
  destruct r as [[]|e|]; [|by eexists _, _, _..].
  destruct (after_attempt_connected W u ws (h ++ t1) s1 Hws) as (rd & _ & ->).
  destruct rd as [[]|e|].
  - eexists _, _, _. split; [reflexivity|]. cbn match. split_and!.
    + exists t1. split; [|exact Hsleep]. rewrite Hcur. by rewrite Hs1.
    + reflexivity.
    + by rewrite Hs1.
  - eexists _, _, _. split; [reflexivity|]. cbn match. split_and!; try done.
    intros seconds Hin. apply elem_of_app in Hin as [Hin|Hin];
      [by eapply Hsleep|by eapply Hno].
  - eexists _, _, _. split; [reflexivity|]. cbn match. split_and!; try done.
    intros seconds Hin. apply elem_of_app in Hin as [Hin|Hin];
      [by eapply Hsleep|by eapply Hno].
Qed.

(** X20.  While the attempts fail, [connect], begun with no connection
    set, calls no handler and sends nothing: it only sleeps, for the successive values of [_get_backoff], and
    the client changes as these calls change it. *)
Theorem failed_attempts_sleep_the_backoffs
    (W : Life.world) (us : list Q) (h : list Life.step)
    (self : wsclient.MokeiWebSocketClient) :
  wsclient._ws self = None →
  wsclient_life.connect W (List.map (fun u => (None, u)) us) h self
  = (Ok tt, snd (wsclient.backoffs us self),
     List.map Life.Sleep (fst (wsclient.backoffs us self))).
Proof.
  revert h self. induction us as [|u us IH]; intros h self Hws; [reflexivity|].
  unfold wsclient_life.connect in *. cbn [List.map Life.for_each].
  unfold Life.bind at 1. rewrite connect_turn_failed by done.
  rewrite IH by (by destruct self).
  cbn [wsclient.backoffs].
  assert (Hb : fst (wsclient._get_backoff u self) = wsclient._current_backoff self)
    by reflexivity.
  destruct (wsclient._get_backoff u self) as [b self1]. cbn [fst snd] in *. subst b.
  by destruct (wsclient.backoffs us self1).
Qed.

Lemma failed_attempts_sleep_the_backoffs_witness :
  wsclient_life.connect (Sample.world_of (Sample.env_flaky 0))
    (List.map (fun u => (None, u)) [1 # 2; 1 # 2]%Q) [] Sample.client_waiting
  = (Ok tt, snd (wsclient.backoffs [1 # 2; 1 # 2]%Q Sample.client_waiting),
     List.map Life.Sleep (fst (wsclient.backoffs [1 # 2; 1 # 2]%Q Sample.client_waiting))).
Proof.
  apply (failed_attempts_sleep_the_backoffs (Sample.world_of (Sample.env_flaky 0))
           [1 # 2; 1 # 2]%Q [] Sample.client_waiting).
  reflexivity.
Defined.

(** X21.  Messages after an error message are not read, and a message that
    is neither text nor an error is passed over: neither changes what a turn
    of [connect] does. *)
Theorem unread_and_ignored_messages
    (W : Life.world) (ws : connection) (pre post : list wsclient_life.WSMessage)
    (u : Q) (h : list Life.step) (self : wsclient.MokeiWebSocketClient) :
  wsclient_life.connect_turn W (Some (ws, pre ++ wsclient_life.ERROR :: post)) u h self
  = wsclient_life.connect_turn W (Some (ws, pre)) u h self
  ∧ wsclient_life.connect_turn W (Some (ws, pre ++ wsclient_life.OTHER :: post)) u h self
    = wsclient_life.connect_turn W (Some (ws, pre ++ post)) u h self.
Proof.
  split.
  - unfold wsclient_life.connect_turn, Life.bind. by rewrite connected_error.
  - unfold wsclient_life.connect_turn, Life.bind. by rewrite connected_other.
Qed.

(** X22.  When the connect handlers return and the transport fails with
    [ConnectionResetError] only, a first message read that is a text with
    the event marker whose JSON does not decode ends [connect] with the
    decoder's exception, after the connect handlers and the drain of the
    queue: the later messages are not
    dispatched, no disconnect handler is called, nothing sleeps, no further
    attempt is made, and [_ws] is still set. *)
Theorem undecodable_message_ends_the_loop
    (W : Life.world) (ws : connection) (data : pystr)
    (post : list wsclient_life.WSMessage) (u : Q)
    (more : list (wsclient_life.attempt * Q))
    (h : list Life.step) (self : wsclient.MokeiWebSocketClient) (e : exn) :
  (∀ handler h', handler ∈ wsclient._onconnect_handlers self →
     Life.connect_handler W h' handler ws = None) →
  (∀ h' w m e, send_str (Life.base W) h' w m = Some e → e = ConnectionResetError) →
  startswith data wsclient._MEM = true →
  json.loads (drop (length wsclient._MEM) data) = Raise e →
  let s0 := wsclient.set_ws (Some ws) (wsclient._reset_backoff self) in
  let drain := wsclient._send_unsent_messages (Life.base W) (Life.actions h) s0 in
  wsclient_life.connect W ((Some (ws, wsclient_life.TEXT data :: post), u) :: more) h self
  = (Raise e, snd (fst drain),
     List.map (fun handler => Life.CallConnect handler ws)
       (wsclient._onconnect_handlers self)
     ++ List.map Life.Did (snd drain))
  ∧ wsclient._ws (snd (fst drain)) = Some ws.
Proof.
  intros Hc Hcontract Hm Hl s0 drain.
  destruct (connected_order W ws (wsclient_life.TEXT data :: post) h self Hc Hcontract)
    as (r & s1 & tr & Hrun & Hdrained & _ & _ & Hread).
  fold s0 in Hrun, Hdrained, Hread. fold drain in Hrun, Hdrained, Hread.
  assert (Hws : wsclient._ws (snd (fst drain)) = Some ws).
  { destruct Hdrained as (k & td & -> & _). reflexivity. }
  clearbody drain.
  cbn [wsclient_life.read_messages] in Hread.
  unfold Life.bind at 1, Life.lift_coro, wsclient._ontext_handler in Hread.
  rewrite Hm, Hl in Hread. cbn in Hread.
  injection Hread as <- <- Htr.
  symmetry in Htr. apply map_eq_nil in Htr as ->.
  split; [|exact Hws].
  unfold wsclient_life.connect. cbn [Life.for_each].
  unfold Life.bind at 1. unfold wsclient_life.connect_turn, Life.bind at 1.
  rewrite Hrun. cbn [List.map]. by rewrite !app_nil_r.
Qed.

Lemma undecodable_message_ends_the_loop_witness :
  let W := Sample.world_of (Sample.env_flaky 1) in
  let s0 := wsclient.set_ws (Some Sample.A) (wsclient._reset_backoff Sample.client_waiting) in
  let drain := wsclient._send_unsent_messages (Life.base W) (Life.actions []) s0 in
  wsclient_life.connect W
    [(Some (Sample.A, [wsclient_life.TEXT Sample.msg_bad_json; wsclient_life.TEXT (str "hi")]),
      (1 # 2)%Q); (None, (1 # 2)%Q)] [] Sample.client_waiting
  = (Raise JSONDecodeError, snd (fst drain),
     List.map (fun handler => Life.CallConnect handler Sample.A)
       (wsclient._onconnect_handlers Sample.client_waiting)
     ++ List.map Life.Did (snd drain))
  ∧ wsclient._ws (snd (fst drain)) = Some Sample.A.
Proof.
  apply (undecodable_message_ends_the_loop (Sample.world_of (Sample.env_flaky 1)) Sample.A
           Sample.msg_bad_json [wsclient_life.TEXT (str "hi")] (1 # 2)
           [(None, (1 # 2)%Q)] [] Sample.client_waiting JSONDecodeError).
  - intros handler h' _. reflexivity.
  - intros h' w m e. simpl. destruct (length h' <? 1)%nat; congruence.
  - reflexivity.
  - vm_compute. reflexivity.
Defined.

Section HappyPath.
Import wsclient wsclient_life.
Variable W : Life.world.

(** Reading plain texts: each goes to the text handlers, in order. *)
Lemma read_plain_texts ws texts :
  ∀ h self,
    Forall (fun text => startswith text wsclient._MEM = false) texts →
    (∀ handler h' text, handler ∈ _ontext_handlers self →
       text_handler (Life.base W) h' handler ws text = None) →
    read_messages W ws (List.map TEXT texts) h self
    = (Ok tt, self,
       List.map Life.Did
         (concat (List.map
                    (fun text => List.map (fun handler => CallText handler ws text)
                                   (_ontext_handlers self))
                    texts))).
Proof.
  induction texts as [|text texts IH]; intros h self Hplain Hok; [reflexivity|].
  apply Forall_cons in Hplain as [Hm Hplain].
  cbn [List.map read_messages concat].
  unfold Life.bind at 1, Life.lift_coro, wsclient._ontext_handler.
  rewrite Hm, bind_get.
  destruct (gather_calls (S := MokeiWebSocketClient)
              (fun handler => CallText handler ws text)
              (fun handler h => text_handler (Life.base W) h handler ws text)
              (_ontext_handlers self) (Life.actions h) self) as (r & -> & Hr).
  rewrite Hr by (intros; by apply Hok).
  rewrite IH by done. by rewrite map_app.
Qed.

End HappyPath.



